(** * ticketninja back end: the Ticketmaster gateway of [src/back-end/server.js]

    A shallow embedding of the Express router (the helpers [normEventRow],
    [pickImage], [pickGenre], [ticketStatusColor], [fullAddress],
    [formatPriceRange] and the four routes [/search], [/event/:id],
    [/venue], [/suggest]) together with the properties of its request
    validation, of its handling of upstream failures and of its response
    normalizers.

    Modelling conventions.
    - A JavaScript value is a [value]: the JSON values plus [undefined].
    - A string is a Rocq [string], one character per UTF-16 code unit;
      code units above 255 are outside the model.
    - A number is a [num]: [NaN] or a rational.  Every finite double is a
      rational.  The subtraction of two doubles rounds, and belongs to
      the platform; what is used of it is that it is exact when the
      operands and their difference are integers of magnitude at most
      2^53, as the pixel sizes of images and their differences are.
      Infinities are outside the model.
    - Code that can throw returns a [result]; a route, which also calls
      [fetch], runs in the monad [M] that records every URL fetched.
    - What the JavaScript platform and the [ngeohash] package provide
      (number printing and parsing, conversion of objects to primitives,
      URL encoding, the geohash encoder, the environment) is not part of
      the repository: it is the interface [Platform]. *)

From Stdlib Require Import String Ascii List Bool ZArith QArith Qabs Lia Lqa.
From Stdlib Require Import DecimalString.
Import ListNotations.

Local Set Warnings "-register-all".

Local Open Scope string_scope.
Local Open Scope list_scope.

(* ================================================================== *)
(** * Strings *)
(* ================================================================== *)

Module JsString.

(** [String.prototype.toLowerCase] on one code unit below 256: the
    letters A-Z, and the Latin-1 capitals U+00C0..U+00DE except the
    multiplication sign U+00D7, move up by 32. *)
Definition lower_char (c : ascii) : ascii :=
  let n := nat_of_ascii c in
  if (65 <=? n)%nat && (n <=? 90)%nat then ascii_of_nat (n + 32)
  else if (192 <=? n)%nat && (n <=? 222)%nat && negb (n =? 215)%nat
       then ascii_of_nat (n + 32)
  else c.

Fixpoint toLowerCase (s : string) : string :=
  match s with
  | EmptyString => EmptyString
  | String c s' => String (lower_char c) (toLowerCase s')
  end.

(** [s.includes(t)]: [t] occurs in [s] at some position. *)
Fixpoint includes (s t : string) : bool :=
  String.prefix t s ||
  match s with
  | EmptyString => false
  | String _ s' => includes s' t
  end.

(** White space and line terminators stripped by [trim], among the
    code units below 256: TAB, LF, VT, FF, CR, SP and NBSP. *)
Definition is_space (c : ascii) : bool :=
  let n := nat_of_ascii c in
  ((9 <=? n)%nat && (n <=? 13)%nat) || (n =? 32)%nat || (n =? 160)%nat.

Fixpoint trimStart (s : string) : string :=
  match s with
  | EmptyString => EmptyString
  | String c s' => if is_space c then trimStart s' else s
  end.

Fixpoint trimEnd (s : string) : string :=
  match s with
  | EmptyString => EmptyString
  | String c s' =>
      match trimEnd s' with
      | EmptyString => if is_space c then EmptyString else String c EmptyString
      | t => String c t
      end
  end.

Definition trim (s : string) : string := trimEnd (trimStart s).

(** Every code unit of the string is white space. *)
Fixpoint blank (s : string) : bool :=
  match s with
  | EmptyString => true
  | String c s' => is_space c && blank s'
  end.

End JsString.

(* ================================================================== *)
(** * Values, errors and results *)
(* ================================================================== *)

Inductive num : Type :=
| NaN
| Fin (q : Q).

(** An object is the list of its own properties, each name once; an array
    is the list of its elements. *)
Inductive value : Type :=
| VUndefined
| VNull
| VBool (b : bool)
| VNum (n : num)
| VStr (s : string)
| VArr (items : list value)
| VObj (fields : list (string * value)).

(** What a handler can throw.  [UpstreamError what status] is the
    [new Error(`${what}: ${status}`)] of the routes. *)
Inductive error : Type :=
| TypeError
| SyntaxError
| FetchFailed
| UpstreamError (what : string) (status : Z).

Inductive result (A : Type) : Type :=
| Ok (a : A)
| Throw (e : error).
Arguments Ok {A} a.
Arguments Throw {A} e.

Definition rbind {A B} (r : result A) (k : A -> result B) : result B :=
  match r with
  | Ok a => k a
  | Throw e => Throw e
  end.

Declare Scope result_scope.
Delimit Scope result_scope with result.
Notation "x <- c ;; k" := (rbind c (fun x => k))
  (at level 61, c at next level, right associativity) : result_scope.

Local Open Scope result_scope.

(** [Array.prototype.map] with a callback that can throw: the elements
    are visited in order and the first exception ends the loop. *)
Fixpoint mapM {A B} (f : A -> result B) (l : list A) : result (list B) :=
  match l with
  | [] => Ok []
  | x :: xs => y <- f x ;; ys <- mapM f xs ;; Ok (y :: ys)
  end.

(** ** Numbers *)

Definition num_abs (a : num) : num :=
  match a with
  | Fin x => Fin (Qabs x)
  | NaN => NaN
  end.

(** [a > 0]; false on [NaN]. *)
Definition num_pos (a : num) : bool :=
  match a with
  | Fin x => negb (Qle_bool x 0)
  | NaN => false
  end.

(** ** Truthiness, [??] and [||] *)

Definition nullish (v : value) : bool :=
  match v with
  | VUndefined | VNull => true
  | _ => false
  end.

Definition truthy (v : value) : bool :=
  match v with
  | VUndefined | VNull => false
  | VBool b => b
  | VNum NaN => false
  | VNum (Fin q) => negb (Qeq_bool q 0)
  | VStr s => negb (s =? "")
  | VArr _ | VObj _ => true
  end.

(** [v ?? d] *)
Definition coalesce (v d : value) : value := if nullish v then d else v.

(** [v || d] *)
Definition or_else (v d : value) : value := if truthy v then v else d.

(** A destructuring default [{ k = d }]: used when the property is
    [undefined] only. *)
Definition default_to (v d : value) : value :=
  match v with
  | VUndefined => d
  | _ => v
  end.

(** ** Property access

    The property names read by the source are field names of the
    payloads and the index [0]; none of them is a member of
    [Object.prototype], [Array.prototype] or [String.prototype], so a
    name that is not an own property reads as [undefined]. *)

Fixpoint assoc (k : string) (fields : list (string * value)) : value :=
  match fields with
  | [] => VUndefined
  | (k', v) :: rest => if k =? k' then v else assoc k rest
  end.

(** [v[k]] for a [v] that is neither [null] nor [undefined]. *)
Definition member (v : value) (k : string) : value :=
  match v with
  | VObj fields => assoc k fields
  | VArr items => if k =? "0" then hd VUndefined items else VUndefined
  | VStr s =>
      if k =? "0" then
        match s with
        | EmptyString => VUndefined
        | String c _ => VStr (String c EmptyString)
        end
      else VUndefined
  | _ => VUndefined
  end.

(** [v.k]: a [TypeError] on [null] and [undefined]. *)
Definition get (v : value) (k : string) : result value :=
  if nullish v then Throw TypeError else Ok (member v k).

(** [v?.k] *)
Definition get_opt (v : value) (k : string) : value :=
  if nullish v then VUndefined else member v k.

(** [v?.k1?.k2?. ... ?.kn] *)
Definition path (v : value) (ks : list string) : value :=
  fold_left get_opt ks v.

Definition is_array (v : value) : bool :=
  match v with
  | VArr _ => true
  | _ => false
  end.

Definition is_string (v : value) : bool :=
  match v with
  | VStr _ => true
  | _ => false
  end.

(** A primitive value: converting it to a string or to a number runs no
    code of the value and cannot throw. *)
Definition is_primitive (v : value) : bool :=
  match v with
  | VArr _ | VObj _ => false
  | _ => true
  end.

(* ================================================================== *)
(** * The platform *)
(* ================================================================== *)

(** What the routes use and the repository does not define. *)
Class Platform : Type := {
  (** [Number::toString] *)
  number_to_string : num -> string;
  (** [StringToNumber] *)
  string_to_number : string -> num;
  (** [ToString] of an array or object; [OrdinaryToPrimitive] throws a
      [TypeError] when neither [toString] nor [valueOf] is callable. *)
  object_to_string : value -> result string;
  (** [ToNumber] of an array or object. *)
  object_to_number : value -> result num;
  (** [parseFloat] on a string. *)
  parse_float : string -> num;
  (** [Number.prototype.toFixed(2)] *)
  toFixed2 : num -> string;
  (** [ngeohash.encode(latitude, longitude, numberOfChars)] *)
  ngeohash_encode : num -> num -> Z -> string;
  encodeURIComponent : string -> string;
  (** [URLSearchParams.prototype.toString] on the list of pairs. *)
  URLSearchParams_toString : list (string * string) -> string;
  (** [process.env.TM_API_KEY]; [None] when the variable is not set. *)
  TM_API_KEY : option string;
  (** [String(Object.prototype[k])] when [Object.prototype] has a member
      [k]: what [SEGMENT_IDS[k]] reads for a [k] that is not one of its
      own keys. *)
  Object_prototype_member : string -> option string;
  (** [x - y] on two finite doubles: the difference, rounded to the
      nearest double. *)
  double_sub : Q -> Q -> num
}.

(* ================================================================== *)
(** * The helpers of the router *)
(* ================================================================== *)

Section Helpers.

Context {P : Platform}.

(** ** Numbers *)

(** [a - b]: [NaN] when an operand is [NaN], and otherwise the
    subtraction of doubles. *)
Definition num_sub (a b : num) : num :=
  match a, b with
  | Fin x, Fin y => double_sub x y
  | _, _ => NaN
  end.

(** ** Conversions *)

(** [String(v)], and the conversion a template literal applies. *)
Definition ToString (v : value) : result string :=
  match v with
  | VUndefined => Ok "undefined"
  | VNull => Ok "null"
  | VBool true => Ok "true"
  | VBool false => Ok "false"
  | VNum n => Ok (number_to_string n)
  | VStr s => Ok s
  | VArr _ | VObj _ => object_to_string v
  end.

(** [Number(v)], and the conversion the operator [-] applies. *)
Definition ToNumber (v : value) : result num :=
  match v with
  | VUndefined => Ok NaN
  | VNull => Ok (Fin 0)
  | VBool true => Ok (Fin 1)
  | VBool false => Ok (Fin 0)
  | VNum n => Ok n
  | VStr s => Ok (string_to_number s)
  | VArr _ | VObj _ => object_to_number v
  end.

(** [parseFloat(v)] converts its argument to a string first. *)
Definition parseFloat (v : value) : result num :=
  s <- ToString v ;; Ok (parse_float s).

(** [items.join(sep)]: [null] and [undefined] elements print as the
    empty string. *)
Definition join (sep : string) (items : list value) : result string :=
  texts <- mapM (fun v => if nullish v then Ok "" else ToString v) items ;;
  Ok (String.concat sep texts).

(** [v.map(f)]: a value that is not an array has no callable [map]. *)
Definition array_map (f : value -> result value) (v : value)
  : result (list value) :=
  match v with
  | VArr items => mapM f items
  | _ => Throw TypeError
  end.

(** ** [Array.prototype.sort]

    [SortCompare] of ECMAScript: [undefined] sorts last and never reaches
    the comparator, and a [NaN] answer of the comparator counts as [+0].
    The sort is stable.  It is modelled by insertion from the right,
    which moves an element past those it compares strictly greater than;
    for a comparator that is a consistent ordering every stable sort
    yields this list. *)

Definition SortCompare (comparefn : value -> value -> result num)
  (x y : value) : result num :=
  match x, y with
  | VUndefined, VUndefined => Ok (Fin 0)
  | VUndefined, _ => Ok (Fin 1)
  | _, VUndefined => Ok (Fin (-1))
  | _, _ =>
      v <- comparefn x y ;;
      match v with
      | NaN => Ok (Fin 0)
      | _ => Ok v
      end
  end.

Fixpoint sort_insert (comparefn : value -> value -> result num)
  (x : value) (sorted : list value) : result (list value) :=
  match sorted with
  | [] => Ok [x]
  | y :: rest =>
      c <- SortCompare comparefn x y ;;
      if num_pos c
      then (rest' <- sort_insert comparefn x rest ;; Ok (y :: rest'))
      else Ok (x :: y :: rest)
  end.

Fixpoint sort (comparefn : value -> value -> result num)
  (items : list value) : result (list value) :=
  match items with
  | [] => Ok []
  | x :: rest =>
      sorted <- sort comparefn rest ;;
      sort_insert comparefn x sorted
  end.

(** ** [pickImage] *)

(** [Math.abs(a.width - a.height)] *)
Definition squareness (a : value) : result num :=
  w <- get a "width" ;;
  h <- get a "height" ;;
  wn <- ToNumber w ;;
  hn <- ToNumber h ;;
  Ok (num_abs (num_sub wn hn)).

(** The comparator [(a, b) => Math.abs(a.width - a.height) -
    Math.abs(b.width - b.height)]. *)
Definition bySquareness (a b : value) : result num :=
  x <- squareness a ;;
  y <- squareness b ;;
  Ok (num_sub x y).

Definition pickImage (images : value) : result value :=
  match images with
  | VArr ((first :: _) as items) =>
      sorted <- sort bySquareness items ;;
      let url := get_opt (hd VUndefined sorted) "url" in
      if truthy url then Ok url
      else
        url0 <- get first "url" ;;
        Ok (or_else url0 (VStr ""))
  | _ => Ok (VStr "")
  end.

(** ** [pickGenre] *)

Definition pickGenre (classifications : value) : result string :=
  match classifications with
  | VArr (c :: _) =>
      let parts :=
        filter truthy [ path c ["segment"; "name"];
                        path c ["genre"; "name"];
                        path c ["subGenre"; "name"] ] in
      join " | " parts
  | _ => Ok ""
  end.

(** ** [normEventRow] *)

Definition normEventRow (e : value) : result value :=
  id <- get e "id" ;;
  name <- get e "name" ;;
  imageUrl <- pickImage (get_opt e "images") ;;
  genre <- pickGenre (get_opt e "classifications") ;;
  Ok (VObj
        [ ("id", id);
          ("name", coalesce name (VStr ""));
          ("dateLocal",
             coalesce (path e ["dates"; "start"; "localDate"]) (VStr ""));
          ("imageUrl", imageUrl);
          ("genre", VStr genre);
          ("venue",
             coalesce (path e ["_embedded"; "venues"; "0"; "name"])
                      (VStr "")) ]).

(** ** [ticketStatusColor] *)

(** [v.toLowerCase()]: only a string has the method. *)
Definition toLowerCase (v : value) : result string :=
  match v with
  | VStr s => Ok (JsString.toLowerCase s)
  | _ => Throw TypeError
  end.

Definition ticketStatusColor (code : value) : result string :=
  c <- toLowerCase (or_else code (VStr "")) ;;
  if JsString.includes c "onsale" then Ok "green"
  else if JsString.includes c "offsale" then Ok "red"
  else if JsString.includes c "cancel" then Ok "black"
  else if JsString.includes c "postpon" then Ok "orange"
  else if JsString.includes c "resched" then Ok "orange"
  else Ok "gray".

(** ** [fullAddress] *)

Definition fullAddress (venue : value) : result string :=
  if negb (truthy venue) then Ok ""
  else
    cityState <-
      join ", " (filter truthy [ path venue ["city"; "name"];
                                 path venue ["state"; "stateCode"] ]) ;;
    join ", " (filter truthy [ get_opt venue "name";
                               path venue ["address"; "line1"];
                               VStr cityState;
                               get_opt venue "postalCode" ]).

(** ** [formatPriceRange] *)

(** [r?.k != null ? Number(r.k).toFixed(2) : null] *)
Definition price_bound (r : value) (k : string) : result (option string) :=
  let b := get_opt r k in
  if nullish b then Ok None
  else n <- ToNumber b ;; Ok (Some (toFixed2 n)).

Definition nonempty (o : option string) : bool :=
  match o with
  | Some s => negb (s =? "")
  | None => false
  end.

Definition text_of (o : option string) : string :=
  match o with
  | Some s => s
  | None => "null"
  end.

Definition formatPriceRange (ranges : value) : result string :=
  match ranges with
  | VArr (r :: _) =>
      min <- price_bound r "min" ;;
      max <- price_bound r "max" ;;
      if nonempty min && nonempty max
      then Ok ("$" ++ text_of min ++ " ~ $" ++ text_of max)%string
      else if nonempty min then Ok ("From $" ++ text_of min)%string
      else if nonempty max then Ok ("Up to $" ++ text_of max)%string
      else Ok ""
  | _ => Ok ""
  end.

End Helpers.

(* ================================================================== *)
(** * The routes *)
(* ================================================================== *)

(** What [await fetch(url)] gives: the promise rejects, or it resolves to
    a response with a status and a body; [body = None] is a body that is
    not JSON, on which [r.json()] rejects. *)
Inductive fetch_result : Type :=
| NetworkFailure
| Response (status : Z) (body : option value).

(** [res.status(status).json(body)]; [res.json(body)] sends status 200. *)
Inductive reply : Type :=
| Sent (status : Z) (body : value).

(** How a request ends: a reply was sent, or the [catch] block passed the
    exception to [next]. *)
Inductive outcome : Type :=
| Replied (status : Z) (body : value)
| Next (e : error).

(** A route computes in [M]: it can throw, and it appends the URL of
    every [fetch] to the log. *)
Definition M (A : Type) : Type := list string -> result A * list string.

Definition ret {A} (a : A) : M A := fun log => (Ok a, log).

Definition throw {A} (e : error) : M A := fun log => (Throw e, log).

Definition bind {A B} (m : M A) (k : A -> M B) : M B :=
  fun log =>
    match m log with
    | (Ok a, log') => k a log'
    | (Throw e, log') => (Throw e, log')
    end.

Definition lift {A} (r : result A) : M A := fun log => (r, log).

Declare Scope route_scope.
Delimit Scope route_scope with route.
Notation "x <- c ;; k" := (bind c (fun x => k))
  (at level 61, c at next level, right associativity) : route_scope.

(** [r.ok]: the status is in the range 200-299. *)
Definition ok (status : Z) : bool := (200 <=? status)%Z && (status <=? 299)%Z.

Definition error_body (message : string) : value :=
  VObj [("error", VStr message)].

Definition TM_BASE : string := "https://app.ticketmaster.com/discovery/v2".

(** The object literal [SEGMENT_IDS]. *)
Definition SEGMENT_IDS : list (string * string) :=
  [ ("Music", "KZFzniwnSyZfZ7v7nJ");
    ("Sports", "KZFzniwnSyZfZ7v7nE");
    ("Arts & Theatre", "KZFzniwnSyZfZ7v7na");
    ("Film", "KZFzniwnSyZfZ7v7nn");
    ("Miscellaneous", "KZFzniwnSyZfZ7v7n1") ].

Fixpoint own_segment (k : string) (table : list (string * string))
  : option string :=
  match table with
  | [] => None
  | (k', id) :: rest => if k =? k' then Some id else own_segment k rest
  end.

(** [SameValueZero], the equality of [Set].  Two objects are the same
    value when they are one object; the values compared come from
    different places of one parsed payload, so two objects or arrays
    among them are never the same. *)
Definition SameValueZero (x y : value) : bool :=
  match x, y with
  | VUndefined, VUndefined => true
  | VNull, VNull => true
  | VBool a, VBool b => Bool.eqb a b
  | VNum NaN, VNum NaN => true
  | VNum (Fin a), VNum (Fin b) => Qeq_bool a b
  | VStr s, VStr t => (s =? t)%string
  | _, _ => false
  end.

(** [set.add(x)], the set kept in insertion order. *)
Definition Set_add (set : list value) (x : value) : list value :=
  if existsb (SameValueZero x) set then set else set ++ [x].

(** [[...new Set(items)]] *)
Definition Set_of (items : list value) : list value :=
  fold_left Set_add items [].

Section Routes.

Context {P : Platform}.

(** The upstream: what a [fetch] of each URL gives. *)
Variable net : string -> fetch_result.

Local Open Scope route_scope.

(** [const r = await fetch(url)] *)
Definition fetch (url : string) : M (Z * option value) :=
  fun log =>
    match net url with
    | NetworkFailure => (Throw FetchFailed, log ++ [url])
    | Response status body => (Ok (status, body), log ++ [url])
    end.

(** [await r.json()] *)
Definition json (r : Z * option value) : M value :=
  match snd r with
  | Some j => ret j
  | None => throw SyntaxError
  end.

(** The [try { ... } catch (err) { next(err) }] around every handler,
    started with nothing fetched yet. *)
Definition handle (h : M reply) : outcome * list string :=
  match h [] with
  | (Ok (Sent status body), log) => (Replied status body, log)
  | (Throw e, log) => (Next e, log)
  end.

Definition api_key : string :=
  match TM_API_KEY with
  | Some k => k
  | None => "undefined"
  end.

(** ** [GET /search] *)

(** [SEGMENT_IDS[category]], as the text [params.set] stores; [None]
    when the lookup is [undefined]. *)
Definition segment_of (category : value) : result (option string) :=
  (k <- ToString category ;;
   match own_segment k SEGMENT_IDS with
   | Some id => Ok (if id =? "" then None else Some id)
   | None => Ok (Object_prototype_member k)
   end)%result.

(** Lines 103-113: the parameters of the upstream search. *)
Definition buildSearchQuery (keyword distance category lat lng : value)
  : result (list (string * string)) :=
  (latitude <- parseFloat lat ;;
   longitude <- parseFloat lng ;;
   let geoPoint := ngeohash_encode latitude longitude 7 in
   kw <- ToString keyword ;;
   radius <- ToString (or_else distance (VStr "10")) ;;
   let params :=
     [ ("apikey", api_key); ("keyword", kw); ("radius", radius);
       ("unit", "miles"); ("geoPoint", geoPoint) ] in
   seg <- segment_of category ;;
   match seg with
   | Some id => Ok (params ++ [("segmentId", id)])
   | None => Ok params
   end)%result.

(** Line 120: [(j?._embedded?.events || []).map(normEventRow)]. *)
Definition normalizeSearchResults (j : value) : result (list value) :=
  array_map normEventRow (or_else (path j ["_embedded"; "events"]) (VArr [])).

Definition search_route (query : value) : M reply :=
  let keyword := default_to (member query "keyword") (VStr "") in
  let distance := default_to (member query "distance") (VStr "10") in
  let category := default_to (member query "category") (VStr "Default") in
  let lat := member query "lat" in
  let lng := member query "lng" in
  if negb (truthy keyword)
  then ret (Sent 400 (error_body "keyword is required"))
  else if negb (truthy lat) || negb (truthy lng)
  then ret (Sent 400 (error_body "lat and lng are required"))
  else
    params <- lift (buildSearchQuery keyword distance category lat lng) ;;
    r <- fetch (TM_BASE ++ "/events.json?" ++ URLSearchParams_toString params) ;;
    if negb (ok (fst r))
    then throw (UpstreamError "TM search failed" (fst r))
    else
      j <- json r ;;
      events <- lift (normalizeSearchResults j) ;;
      ret (Sent 200 (VArr events)).

(** ** [GET /event/:id] *)

(** Lines 136-150: the object [details]. *)
Definition normalizeEventDetail (e : value) : result value :=
  (id <- get e "id" ;;
   name <- get e "name" ;;
   artists <-
     array_map
       (fun a => n <- get a "name" ;; u <- get a "url" ;;
                 Ok (VObj [("name", n); ("url", u)]))
       (or_else (path e ["_embedded"; "attractions"]) (VArr [])) ;;
   address <- fullAddress (path e ["_embedded"; "venues"; "0"]) ;;
   color <- ticketStatusColor (path e ["dates"; "status"; "code"]) ;;
   priceRange <- formatPriceRange (get_opt e "priceRanges") ;;
   genre <- pickGenre (get_opt e "classifications") ;;
   Ok (VObj
         [ ("id", id);
           ("name", coalesce name (VStr ""));
           ("dateLocal",
              coalesce (path e ["dates"; "start"; "localDate"]) (VStr ""));
           ("timeLocal",
              coalesce (path e ["dates"; "start"; "localTime"]) (VStr ""));
           ("artists", VArr (firstn 5 artists));
           ("venue",
              coalesce (path e ["_embedded"; "venues"; "0"; "name"])
                       (VStr ""));
           ("address", VStr address);
           ("ticketStatus",
              coalesce (path e ["dates"; "status"; "code"]) (VStr ""));
           ("ticketStatusColor", VStr color);
           ("buyTicketAt", coalesce (get_opt e "url") (VStr ""));
           ("seatmap", coalesce (path e ["seatmap"; "staticUrl"]) (VStr ""));
           ("priceRange", VStr priceRange);
           ("genre", VStr genre) ]))%result.

Definition event_route (id : string) : M reply :=
  r <- fetch (TM_BASE ++ "/events/" ++ encodeURIComponent id
              ++ ".json?apikey=" ++ api_key) ;;
  if negb (ok (fst r))
  then ret (Sent (fst r) (error_body "event not found"))
  else
    e <- json r ;;
    details <- lift (normalizeEventDetail e) ;;
    ret (Sent 200 details).

(** ** [GET /venue] *)

(** [v?.location?.k ? Number(v.location.k) : null] *)
Definition coordinate (v : value) (k : string) : result value :=
  (if truthy (path v ["location"; k])
   then
     location <- get v "location" ;;
     c <- get location k ;;
     n <- ToNumber c ;;
     Ok (VNum n)
   else Ok VNull)%result.

(** Lines 185-188: the value of [googleMapsUrl]. *)
Definition googleMapsUrl (v : value) : result value :=
  (if truthy (path v ["location"; "latitude"])
      && truthy (path v ["location"; "longitude"])
   then
     location <- get v "location" ;;
     latitude <- get location "latitude" ;;
     lat <- ToString latitude ;;
     location' <- get v "location" ;;
     longitude <- get location' "longitude" ;;
     lng <- ToString longitude ;;
     Ok (VStr ("https://www.google.com/maps/search/?api=1&query="
               ++ lat ++ "," ++ lng))
   else Ok VNull)%result.

(** Lines 175-190: [null], or the object [out]. *)
Definition normalizeVenue (j : value) : result value :=
  (let v := path j ["_embedded"; "venues"; "0"] in
   if negb (truthy v) then Ok VNull
   else
     name <- get v "name" ;;
     address <- fullAddress v ;;
     lat <- coordinate v "latitude" ;;
     lng <- coordinate v "longitude" ;;
     maps <- googleMapsUrl v ;;
     Ok (VObj
           [ ("name", coalesce name (VStr ""));
             ("address", VStr address);
             ("location", VObj [("lat", lat); ("lng", lng)]);
             ("googleMapsUrl", maps);
             ("tmUrl", coalesce (get_opt v "url") VNull) ]))%result.

Definition venue_route (query : value) : M reply :=
  let name := member query "name" in
  if negb (truthy name)
  then ret (Sent 400 (error_body "name is required"))
  else
    keyword <- lift (ToString name) ;;
    let params :=
      [("apikey", api_key); ("keyword", keyword); ("size", "1")] in
    r <- fetch (TM_BASE ++ "/venues.json?" ++ URLSearchParams_toString params) ;;
    if negb (ok (fst r))
    then throw (UpstreamError "TM venue failed" (fst r))
    else
      j <- json r ;;
      out <- lift (normalizeVenue j) ;;
      ret (Sent 200 out).

(** ** [GET /suggest] *)

(** [keyword.trim()]: only a string has the method. *)
Definition trim (v : value) : result string :=
  match v with
  | VStr s => Ok (JsString.trim s)
  | _ => Throw TypeError
  end.

(** [xs.forEach(x => suggestions.push(x.name))], as the names pushed. *)
Definition names_of (xs : value) : result (list value) :=
  array_map (fun x => get x "name") xs.

(** Lines 232-241. *)
Definition normalizeSuggestions (j : value) : result (list value) :=
  (embedded <- get j "_embedded" ;;
   suggestions <-
     (if truthy embedded
      then
        let attractions := default_to (member embedded "attractions") (VArr []) in
        let venues := default_to (member embedded "venues") (VArr []) in
        let events := default_to (member embedded "events") (VArr []) in
        a <- names_of attractions ;;
        v <- names_of venues ;;
        e <- names_of events ;;
        Ok (a ++ v ++ e)%list
      else Ok []) ;;
   Ok (firstn 10 (Set_of suggestions)))%result.

Definition suggest_route (query : value) : M reply :=
  let keyword := default_to (member query "keyword") (VStr "") in
  trimmed <- lift (trim keyword) ;;
  if trimmed =? ""
  then ret (Sent 200 (VArr []))
  else
    text <- lift (ToString keyword) ;;
    r <- fetch (TM_BASE ++ "/suggest?apikey=" ++ api_key ++ "&keyword="
                ++ encodeURIComponent text) ;;
    if negb (ok (fst r))
    then throw (UpstreamError "TM suggest failed" (fst r))
    else
      j <- json r ;;
      unique <- lift (normalizeSuggestions j) ;;
      ret (Sent 200 (VArr unique)).

End Routes.

(** ** The application

    The router is mounted under [/api]; an exception a route passes to
    [next] reaches the error handler of the application (lines 25-28),
    which logs it and sends [res.status(500).json({ error: 'Server
    error' })]. *)

Definition errorHandler (err : error) : reply :=
  Sent 500 (error_body "Server error").

(** What the client receives at the end of a request. *)
Definition respond (o : outcome) : reply :=
  match o with
  | Replied status body => Sent status body
  | Next err => errorHandler err
  end.

(* ================================================================== *)
(** * A platform for the examples *)
(* ================================================================== *)

(** The properties below hold on every platform.  The examples are
    evaluated on this one, which is exact on what the examples use and
    coarse elsewhere: it prints and parses signed decimal integers (any
    other text parses to [NaN]); it prints a plain object as
    [[object Object]], fails to convert an object that has an own
    [toString], and prints an array as the empty string; an object or
    array converts to the number [NaN]; URL text is left as it is (the
    examples use unreserved characters only); of the members of
    [Object.prototype] it knows [constructor]; the geohash is the
    usual subdivision, computed on rationals; and the subtraction does
    not round, which is what doubles do on the integers of the
    examples. *)
Module Sample.

Definition print_num (n : num) : string :=
  match n with
  | NaN => "NaN"
  | Fin q => NilZero.string_of_int (Z.to_int (Qnum q / Zpos (Qden q)))
  end.

Fixpoint digits (s : string) (acc : Z) : option Z :=
  match s with
  | EmptyString => Some acc
  | String c s' =>
      let n := Z.of_nat (nat_of_ascii c) in
      if (48 <=? n)%Z && (n <=? 57)%Z then digits s' (10 * acc + (n - 48))%Z
      else None
  end.

Definition parse_num (s : string) : num :=
  match s with
  | EmptyString => NaN
  | String "-" (String _ _ as s') =>
      match digits s' 0 with
      | Some z => Fin (inject_Z (- z))
      | None => NaN
      end
  | _ =>
      match digits s 0 with
      | Some z => Fin (inject_Z z)
      | None => NaN
      end
  end.

Definition print_object (v : value) : result string :=
  match v with
  | VObj fields =>
      match assoc "toString" fields with
      | VUndefined => Ok "[object Object]"
      | _ => Throw TypeError
      end
  | _ => Ok ""
  end.

Definition BASE32_CODES : string := "0123456789bcdefghjkmnpqrstuvwxyz".

Definition gt (x : num) (mid : Q) : bool :=
  match x with
  | Fin q => negb (Qle_bool q mid)
  | NaN => false
  end.

(** One character is five bits; the bits alternate between longitude
    and latitude, longitude first. *)
Fixpoint geohash_bits (n : nat) (even : bool) (lat lng : num)
  (minLat maxLat minLon maxLon : Q) (bits : nat) (hash : nat) : string :=
  match n with
  | O => EmptyString
  | S n' =>
      let mid := if even then (maxLon + minLon) / 2 else (maxLat + minLat) / 2 in
      let up := if even then gt lng mid else gt lat mid in
      let hash' := (2 * hash + if up then 1 else 0)%nat in
      let minLat' := if even then minLat else if up then mid else minLat in
      let maxLat' := if even then maxLat else if up then maxLat else mid in
      let minLon' := if even then (if up then mid else minLon) else minLon in
      let maxLon' := if even then (if up then maxLon else mid) else maxLon in
      if (bits =? 4)%nat
      then
        match String.get hash' BASE32_CODES with
        | Some c =>
            String c (geohash_bits n' (negb even) lat lng
                        minLat' maxLat' minLon' maxLon' 0 0)
        | None => EmptyString
        end
      else geohash_bits n' (negb even) lat lng
             minLat' maxLat' minLon' maxLon' (S bits) hash'
  end.

Definition geohash (lat lng : num) (numberOfChars : Z) : string :=
  geohash_bits (5 * Z.to_nat numberOfChars) true lat lng
    (-90) 90 (-180) 180 0 0.

Definition join_pair (kv : string * string) : string :=
  (fst kv ++ "=" ++ snd kv)%string.

#[export] Instance platform : Platform := {
  number_to_string := print_num;
  string_to_number := parse_num;
  object_to_string := print_object;
  object_to_number := fun _ => Ok NaN;
  parse_float := parse_num;
  toFixed2 := fun n => (print_num n ++ ".00")%string;
  ngeohash_encode := geohash;
  encodeURIComponent := fun s => s;
  URLSearchParams_toString := fun l => String.concat "&" (map join_pair l);
  TM_API_KEY := Some "KEY";
  Object_prototype_member :=
    fun k => if k =? "constructor"
             then Some "function Object() { [native code] }"
             else None;
  double_sub := fun x y => Fin (x - y)
}.

(** ** Requests and payloads of the examples *)

Definition image (url : string) (width height : Z) : value :=
  VObj [ ("url", VStr url); ("width", VNum (Fin (inject_Z width)));
         ("height", VNum (Fin (inject_Z height))) ].

(** An event with an image list, a classification and two attractions,
    and without dates, venues, status and prices. *)
Definition concert : value :=
  VObj [ ("id", VStr "vvG1");
         ("name", VStr "Rock Night");
         ("images", VArr [image "wide" 640 360; image "square" 300 300]);
         ("classifications",
          VArr [VObj [ ("segment", VObj [("name", VStr "Music")]);
                       ("genre", VObj [("name", VStr "Rock")]) ]]);
         ("_embedded",
          VObj [("attractions",
                 VArr [ VObj [("name", VStr "A"); ("url", VStr "u/a")];
                        VObj [("name", VStr "B")] ])]) ].

(** A venue payload as the upstream sends it: coordinates as strings. *)
Definition forum : value :=
  VObj [("_embedded",
         VObj [("venues",
                VArr [VObj [ ("name", VStr "The Forum");
                             ("city", VObj [("name", VStr "Inglewood")]);
                             ("state", VObj [("stateCode", VStr "CA")]);
                             ("postalCode", VStr "90305");
                             ("location",
                              VObj [ ("latitude", VStr "34");
                                     ("longitude", VStr "-118") ]) ]])])].

(** A venue on the equator, its latitude the number 0. *)
Definition equator : value :=
  VObj [("_embedded",
         VObj [("venues",
                VArr [VObj [ ("name", VStr "Mitad del Mundo");
                             ("location",
                              VObj [ ("latitude", VNum (Fin 0));
                                     ("longitude", VNum (Fin (-78))) ]) ]])])].

(** The suggest payload of the specification's example. *)
Definition suggestions : value :=
  VObj [("_embedded",
         VObj [ ("attractions",
                 VArr [VObj [("name", VStr "A")]; VObj [("name", VStr "B")]]);
                ("venues",
                 VArr [VObj [("name", VStr "B")]; VObj [("name", VStr "C")]]);
                ("events", VArr [VObj [("name", VStr "A")]]) ])].

(** A search whose latitude is not a number. *)
Definition rock_query : value :=
  VObj [ ("keyword", VStr "rock"); ("category", VStr "Music");
         ("lat", VStr "north"); ("lng", VStr "-118") ].

Definition named (name : string) : value := VObj [("name", VStr name)].

Definition keyword_query (keyword : string) : value :=
  VObj [("keyword", VStr keyword)].

(** Upstreams: one that is down, one that answers every request with a
    status and no JSON, one that answers 200 with a payload. *)
Definition down : string -> fetch_result := fun _ => NetworkFailure.

Definition failing (status : Z) : string -> fetch_result :=
  fun _ => Response status None.

Definition answering (j : value) : string -> fetch_result :=
  fun _ => Response 200 (Some j).

End Sample.

(* ================================================================== *)
(** * The vocabulary of the properties *)
(* ================================================================== *)

(** [t] occurs in [s]. *)
Definition occurs_in (t s : string) : Prop :=
  exists pre post, s = (pre ++ t ++ post)%string.

(** [s] contains [t] when case is ignored: a piece of [s] is [t] once
    lowered. *)
Definition contains_ci (s t : string) : Prop :=
  exists pre mid post,
    s = (pre ++ mid ++ post)%string /\ JsString.toLowerCase mid = t.

(** An integer of magnitude at most [bound]. *)
Definition integer_within (bound : Z) (q : Q) : bool :=
  (Qden q =? 1)%positive && (Z.abs (Qnum q) <=? bound)%Z.

(** 2^53: the integers up to it, in magnitude, are doubles. *)
Definition safe_bound : Z := 9007199254740992.

(** 2^52: the difference of two integers up to it is within 2^53. *)
Definition pixel_bound : Z := 4503599627370496.

(** The distance of an image from a square, [|width - height|], when
    both are numbers. *)
Definition size_gap (a : value) : option Q :=
  match member a "width", member a "height" with
  | VNum (Fin w), VNum (Fin h) => Some (Qabs (w - h))
  | _, _ => None
  end.

(** An image: an object whose [width] and [height] are integers of
    magnitude at most 2^52. *)
Definition is_image (a : value) : bool :=
  match a with
  | VObj _ =>
      match member a "width", member a "height" with
      | VNum (Fin w), VNum (Fin h) =>
          integer_within pixel_bound w && integer_within pixel_bound h
      | _, _ => false
      end
  | _ => false
  end.

Definition gap (a : value) : Q :=
  match size_gap a with
  | Some d => d
  | None => 0
  end.

(** Removing duplicates and keeping first occurrences, from the front:
    the head stays and every later value that is the same is dropped. *)
Fixpoint keep_first (l : list value) : list value :=
  match l with
  | [] => []
  | x :: xs => x :: filter (fun y => negb (SameValueZero y x)) (keep_first xs)
  end.

(** The [name]s of a list of entries of a suggest payload: the list may
    be absent, and an entry is neither [null] nor [undefined]. *)
Definition entry_names (v : value) : option (list value) :=
  match v with
  | VUndefined => Some []
  | VArr items =>
      if forallb (fun x => negb (nullish x)) items
      then Some (map (fun x => member x "name") items)
      else None
  | _ => None
  end.

(** No two values of the list are the same value. *)
Definition distinct (l : list value) : Prop :=
  ForallOrdPairs (fun a b => SameValueZero b a = false) l.

Section Urls.

Context {P : Platform}.

(** What IEEE 754 grants of the subtraction of doubles: a difference
    that is itself a double is not rounded.  It is stated for the
    integers of magnitude at most 2^53, which are doubles. *)
Definition subtracts_exactly : Prop :=
  forall x y,
    integer_within safe_bound x = true ->
    integer_within safe_bound y = true ->
    integer_within safe_bound (x - y) = true ->
    double_sub x y = Fin (x - y).

(** The URL the suggest route fetches for a keyword. *)
Definition suggest_url (keyword : string) : string :=
  TM_BASE ++ "/suggest?apikey=" ++ api_key ++ "&keyword="
  ++ encodeURIComponent keyword.

(** The URL the event route fetches for an event id. *)
Definition event_url (id : string) : string :=
  TM_BASE ++ "/events/" ++ encodeURIComponent id ++ ".json?apikey=" ++ api_key.

(** The URL the venue route fetches for a venue name. *)
Definition venue_url (name : string) : string :=
  TM_BASE ++ "/venues.json?"
  ++ URLSearchParams_toString
       [("apikey", api_key); ("keyword", name); ("size", "1")].

(** The URL the search route fetches for a list of parameters. *)
Definition search_url (params : list (string * string)) : string :=
  TM_BASE ++ "/events.json?" ++ URLSearchParams_toString params.

End Urls.

(** The parts of a venue that [fullAddress] prints are primitives. *)
Definition address_ok (venue : value) : bool :=
  is_primitive (get_opt venue "name")
  && is_primitive (path venue ["address"; "line1"])
  && is_primitive (path venue ["city"; "name"])
  && is_primitive (path venue ["state"; "stateCode"])
  && is_primitive (get_opt venue "postalCode").

(** A venue whose printed parts and coordinates are primitives. *)
Definition venue_ok (v : value) : bool :=
  address_ok v
  && is_primitive (path v ["location"; "latitude"])
  && is_primitive (path v ["location"; "longitude"]).

(** An entry of [images] the comparator can measure: neither [null] nor
    [undefined], with primitive [width] and [height] (absent ones are). *)
Definition measurable (a : value) : bool :=
  negb (nullish a)
  && is_primitive (member a "width")
  && is_primitive (member a "height").

Definition images_ok (images : value) : bool :=
  match images with
  | VArr items => forallb measurable items
  | _ => true
  end.

(** The names of the first classification are primitives. *)
Definition classifications_ok (classifications : value) : bool :=
  match classifications with
  | VArr (c :: _) =>
      is_primitive (path c ["segment"; "name"])
      && is_primitive (path c ["genre"; "name"])
      && is_primitive (path c ["subGenre"; "name"])
  | _ => true
  end.

(** The attractions are absent (falsy) or an array without [null]. *)
Definition attractions_ok (attractions : value) : bool :=
  match attractions with
  | VArr items => forallb (fun a => negb (nullish a)) items
  | _ => negb (truthy attractions)
  end.

(** The status code is absent (falsy) or a string. *)
Definition status_ok (code : value) : bool :=
  negb (truthy code) || is_string code.

(** The bounds of the first price range are primitives. *)
Definition prices_ok (ranges : value) : bool :=
  match ranges with
  | VArr (r :: _) =>
      is_primitive (get_opt r "min") && is_primitive (get_opt r "max")
  | _ => true
  end.

(** An event payload for [normEventRow]: an object, any of whose fields
    may be absent; what is present has the shape the code reads. *)
Definition row_ok (e : value) : bool :=
  negb (nullish e)
  && images_ok (get_opt e "images")
  && classifications_ok (get_opt e "classifications").

(** An event payload for the detail record, in the same sense. *)
Definition detail_ok (e : value) : bool :=
  negb (nullish e)
  && attractions_ok (path e ["_embedded"; "attractions"])
  && address_ok (path e ["_embedded"; "venues"; "0"])
  && status_ok (path e ["dates"; "status"; "code"])
  && prices_ok (get_opt e "priceRanges")
  && classifications_ok (get_opt e "classifications").

(** The names of the fields of a record, in order. *)
Definition field_names (record : value) : list string :=
  match record with
  | VObj fields => map fst fields
  | _ => []
  end.

(** None of the fields [keys] of the record is [null] or [undefined]. *)
Definition all_defined (record : value) (keys : list string) : Prop :=
  Forall (fun k => nullish (member record k) = false) keys.

(** The field reads as the empty string when its source is absent. *)
Definition defaults_to_empty (source field : value) : Prop :=
  nullish source = true -> field = VStr "".

(** The colours [ticketStatusColor] can answer. *)
Definition colours : list string :=
  ["green"; "red"; "black"; "orange"; "gray"].

(** A part of a label or of an address: a string, or absent. *)
Definition string_or_absent (v : value) : bool :=
  nullish v || is_string v.

(** The parts that are there: the non-empty strings, in order. *)
Definition text_parts (l : list value) : list string :=
  flat_map (fun v => match v with
                     | VStr s => if s =? "" then [] else [s]
                     | _ => []
                     end) l.

(** The artist record of an attraction. *)
Definition artist_of (a : value) : value :=
  VObj [("name", member a "name"); ("url", member a "url")].

(** An entry of [images] without sizes. *)
Definition unsized (a : value) : bool :=
  negb (nullish a)
  && match member a "width", member a "height" with
     | VUndefined, VUndefined => true
     | _, _ => false
     end.

(* ================================================================== *)
(** * Properties of the strings *)
(* ================================================================== *)

Module JsStringFacts.
Import JsString.

Lemma prefix_split (t s : string) :
  String.prefix t s = true <-> exists post, s = (t ++ post)%string.
Proof.
  revert s. induction t as [|c t IH]; intros s; simpl.
  - split; [intros _; now exists s | now destruct s].
  - destruct s as [|d s].
    + split; [discriminate | intros [post H]; discriminate].
    + simpl. destruct (Ascii.ascii_dec c d) as [->|Hcd].
      * rewrite IH. split; intros [post H]; exists post.
        -- now rewrite H.
        -- now injection H.
      * split; [discriminate | intros [post H]; injection H; congruence].
Qed.

Lemma includes_occurs (s t : string) :
  includes s t = true <-> occurs_in t s.
Proof.
  unfold occurs_in. induction s as [|c s IH].
  - cbn [includes]. rewrite orb_false_r, prefix_split. split.
    + intros [post H]. now exists EmptyString, post.
    + intros [pre [post H]]. destruct pre; [now exists post | discriminate].
  - cbn [includes]. rewrite orb_true_iff, prefix_split, IH. split.
    + intros [[post H] | [pre [post H]]].
      * now exists EmptyString, post.
      * exists (String c pre), post. simpl. now rewrite H.
    + intros [pre [post H]]. destruct pre as [|d pre].
      * left. now exists post.
      * right. exists pre, post. simpl in H. now injection H.
Qed.

Lemma toLowerCase_app (a b : string) :
  toLowerCase (a ++ b) = (toLowerCase a ++ toLowerCase b)%string.
Proof.
  induction a as [|c a IH]; simpl; [reflexivity | now rewrite IH].
Qed.

(** A split of the lowered string comes from a split of the string. *)
Lemma toLowerCase_split (s x y : string) :
  toLowerCase s = (x ++ y)%string ->
  exists a b, s = (a ++ b)%string /\ toLowerCase a = x /\ toLowerCase b = y.
Proof.
  revert s. induction x as [|c x IH]; intros s H.
  - exists EmptyString, s. auto.
  - destruct s as [|d s]; [discriminate|].
    simpl in H. injection H as Hc Hs.
    destruct (IH s Hs) as [a [b [-> [Ha Hb]]]].
    exists (String d a), b. simpl. now rewrite Hc, Ha.
Qed.

Lemma includes_lowered (s t : string) :
  includes (toLowerCase s) t = true <-> contains_ci s t.
Proof.
  rewrite includes_occurs. unfold occurs_in, contains_ci. split.
  - intros [pre [post H]].
    destruct (toLowerCase_split _ _ _ H) as [a [r [-> [Ha Hr]]]].
    destruct (toLowerCase_split _ _ _ Hr) as [m [b [-> [Hm Hb]]]].
    now exists a, m, b.
  - intros [pre [mid [post [-> Hm]]]].
    exists (toLowerCase pre), (toLowerCase post).
    now rewrite !toLowerCase_app, Hm.
Qed.

Lemma includes_lowered_false (s t : string) :
  includes (toLowerCase s) t = false <-> ~ contains_ci s t.
Proof.
  rewrite <- includes_lowered. destruct (includes (toLowerCase s) t);
    split; congruence.
Qed.

End JsStringFacts.

(* ================================================================== *)
(** * [ticketStatusColor] *)
(* ================================================================== *)

Lemma ticketStatusColor_string (code : string) :
  ticketStatusColor (VStr code) =
  let c := JsString.toLowerCase code in
  Ok (if JsString.includes c "onsale" then "green"
      else if JsString.includes c "offsale" then "red"
      else if JsString.includes c "cancel" then "black"
      else if JsString.includes c "postpon" then "orange"
      else if JsString.includes c "resched" then "orange"
      else "gray").
Proof.
  unfold ticketStatusColor, or_else. destruct code as [|a code].
  - reflexivity.
  - cbn [truthy String.eqb negb toLowerCase rbind].
    repeat match goal with
           | |- context [if ?b then _ else _] => destruct b
           end; reflexivity.
Qed.

(** C9.  For every status code string, [ticketStatusColor] classifies by
    substring with case ignored, in a fixed order: a code containing
    "onsale" is green; otherwise one containing "offsale" is red;
    otherwise one containing "cancel" is black; otherwise one containing
    "postpon" or "resched" is orange; every other code, the empty one
    included, is gray. *)
Theorem ticketStatusColor_classifies (code : string) :
  (contains_ci code "onsale" -> ticketStatusColor (VStr code) = Ok "green") /\
  (~ contains_ci code "onsale" -> contains_ci code "offsale" ->
   ticketStatusColor (VStr code) = Ok "red") /\
  (~ contains_ci code "onsale" -> ~ contains_ci code "offsale" ->
   contains_ci code "cancel" ->
   ticketStatusColor (VStr code) = Ok "black") /\
  (~ contains_ci code "onsale" -> ~ contains_ci code "offsale" ->
   ~ contains_ci code "cancel" ->
   contains_ci code "postpon" \/ contains_ci code "resched" ->
   ticketStatusColor (VStr code) = Ok "orange") /\
  (~ contains_ci code "onsale" -> ~ contains_ci code "offsale" ->
   ~ contains_ci code "cancel" -> ~ contains_ci code "postpon" ->
   ~ contains_ci code "resched" ->
   ticketStatusColor (VStr code) = Ok "gray") /\
  ticketStatusColor (VStr "") = Ok "gray".
Proof.
  rewrite ticketStatusColor_string. cbv zeta.
  repeat split.
  - intros H. apply JsStringFacts.includes_lowered in H. now rewrite H.
  - intros H1 H2.
    apply JsStringFacts.includes_lowered_false in H1.
    apply JsStringFacts.includes_lowered in H2. now rewrite H1, H2.
  - intros H1 H2 H3.
    apply JsStringFacts.includes_lowered_false in H1, H2.
    apply JsStringFacts.includes_lowered in H3. now rewrite H1, H2, H3.
  - intros H1 H2 H3 H4.
    apply JsStringFacts.includes_lowered_false in H1, H2, H3.
    rewrite H1, H2, H3.
    destruct H4 as [H4 | H4]; apply JsStringFacts.includes_lowered in H4;
      rewrite H4; now destruct (JsString.includes _ "postpon").
  - intros H1 H2 H3 H4 H5.
    apply JsStringFacts.includes_lowered_false in H1, H2, H3, H4, H5.
    now rewrite H1, H2, H3, H4, H5.
Qed.


(* ================================================================== *)
(** * [pickImage] *)
(* ================================================================== *)

Section PickImage.

Context {P : Platform}.

Lemma integer_within_inv (bound : Z) (q : Q) :
  integer_within bound q = true ->
  exists z, q = inject_Z z /\ (Z.abs z <= bound)%Z.
Proof.
  destruct q as [n d]. unfold integer_within. cbn [Qnum Qden].
  intros H. apply andb_true_iff in H as [Hd Hn].
  apply Pos.eqb_eq in Hd. apply Z.leb_le in Hn. subst d. now exists n.
Qed.

Lemma inject_Z_within (bound z : Z) :
  (Z.abs z <= bound)%Z -> integer_within bound (inject_Z z) = true.
Proof.
  intros H. unfold integer_within. cbn. now apply Z.leb_le.
Qed.

Lemma inject_Z_sub_within (bound x y : Z) :
  (Z.abs (x - y) <= bound)%Z ->
  integer_within bound (inject_Z x - inject_Z y) = true.
Proof.
  intros H. unfold integer_within. cbn. apply Z.leb_le. lia.
Qed.

Lemma image_inv (a : value) :
  is_image a = true ->
  exists fields w h,
    a = VObj fields /\
    assoc "width" fields = VNum (Fin (inject_Z w)) /\
    assoc "height" fields = VNum (Fin (inject_Z h)) /\
    (Z.abs w <= pixel_bound)%Z /\ (Z.abs h <= pixel_bound)%Z /\
    gap a = Qabs (inject_Z w - inject_Z h).
Proof.
  unfold is_image, gap, size_gap.
  destruct a as [| | | | | |fields]; try discriminate. cbn [member].
  destruct (assoc "width" fields) as [| | |[|w]| | |] eqn:Hw; try discriminate.
  destruct (assoc "height" fields) as [| | |[|h]| | |] eqn:Hh; try discriminate.
  intros H. apply andb_true_iff in H as [H1 H2].
  destruct (integer_within_inv _ _ H1) as [zw [-> Bw]].
  destruct (integer_within_inv _ _ H2) as [zh [-> Bh]].
  now exists fields, zw, zh.
Qed.

(** The gap of an image is an integer between 0 and 2^53. *)
Lemma gap_integer (a : value) :
  is_image a = true ->
  exists g, gap a = inject_Z g /\ (0 <= g <= safe_bound)%Z.
Proof.
  intros H.
  destruct (image_inv a H) as [fields [w [h [_ [_ [_ [Bw [Bh ->]]]]]]]].
  exists (Z.abs (w * 1 + - h * 1)). split; [reflexivity|].
  unfold pixel_bound in *. unfold safe_bound. lia.
Qed.

Section Exact.

Hypothesis exact : subtracts_exactly.

Lemma squareness_image (a : value) :
  is_image a = true -> squareness a = Ok (Fin (gap a)).
Proof.
  intros H.
  destruct (image_inv a H) as [fields [w [h [-> [Hw [Hh [Bw [Bh Hg]]]]]]]].
  unfold squareness, get. cbn [nullish member rbind].
  rewrite Hw, Hh, Hg. cbn [ToNumber rbind num_sub].
  rewrite exact; [reflexivity | | |].
  - apply inject_Z_within. unfold pixel_bound in Bw. unfold safe_bound. lia.
  - apply inject_Z_within. unfold pixel_bound in Bh. unfold safe_bound. lia.
  - apply inject_Z_sub_within. unfold pixel_bound in *. unfold safe_bound. lia.
Qed.

Lemma SortCompare_images (a b : value) :
  is_image a = true -> is_image b = true ->
  SortCompare bySquareness a b = Ok (Fin (gap a - gap b)).
Proof.
  intros Ha Hb. unfold SortCompare, bySquareness.
  rewrite (squareness_image a Ha), (squareness_image b Hb).
  destruct (gap_integer a Ha) as [ga [Hga Ba]].
  destruct (gap_integer b Hb) as [gb [Hgb Bb]].
  cbn [rbind num_sub]. rewrite exact.
  - destruct a; try discriminate. destruct b; try discriminate. reflexivity.
  - rewrite Hga. apply inject_Z_within. lia.
  - rewrite Hgb. apply inject_Z_within. lia.
  - rewrite Hga, Hgb. apply inject_Z_sub_within. lia.
Qed.

Lemma num_pos_sub (x y : Q) :
  num_pos (Fin (x - y)) = true <-> y < x.
Proof.
  cbn [num_pos]. rewrite negb_true_iff.
  destruct (Qle_bool (x - y) 0) eqn:E.
  - apply Qle_bool_iff in E. split; [discriminate | intros H; lra].
  - split; [intros _ | reflexivity].
    destruct (Qlt_le_dec y x) as [Hlt | Hle]; [assumption|].
    assert (Qle_bool (x - y) 0 = true) by (apply Qle_bool_iff; lra).
    congruence.
Qed.

(** Insertion into a list of images succeeds, keeps images, and puts in
    front the smaller of the element and the old head, the element on a
    tie. *)
Lemma sort_insert_images (x : value) (sorted : list value) :
  is_image x = true -> forallb is_image sorted = true ->
  exists out,
    sort_insert bySquareness x sorted = Ok out /\
    forallb is_image out = true /\
    hd VUndefined out =
      match sorted with
      | [] => x
      | y :: _ => if num_pos (Fin (gap x - gap y)) then y else x
      end.
Proof.
  intros Hx. induction sorted as [|y rest IH]; intros Hall.
  - exists [x]. cbn [sort_insert forallb hd]. now rewrite Hx.
  - cbn [forallb] in Hall. apply andb_true_iff in Hall as [Hy Hrest].
    cbn [sort_insert]. rewrite (SortCompare_images x y Hx Hy).
    cbn [rbind]. destruct (num_pos (Fin (gap x - gap y))).
    + destruct (IH Hrest) as [out [-> [Hout _]]].
      exists (y :: out). cbn [rbind forallb hd]. now rewrite Hy, Hout.
    + exists (x :: y :: rest). cbn [forallb hd]. now rewrite Hx, Hy, Hrest.
Qed.

(** The head of the sorted array is the first image of least gap. *)
Lemma sort_images_head (items : list value) :
  items <> [] -> forallb is_image items = true ->
  exists sorted pre best post,
    sort bySquareness items = Ok sorted /\
    forallb is_image sorted = true /\
    hd VUndefined sorted = best /\
    items = pre ++ best :: post /\
    is_image best = true /\
    Forall (fun a => gap best < gap a) pre /\
    Forall (fun a => gap best <= gap a) post.
Proof.
  induction items as [|x rest IH]; intros Hne Hall; [congruence|].
  cbn [forallb] in Hall. apply andb_true_iff in Hall as [Hx Hrest].
  destruct rest as [|x' rest'].
  - exists [x], [], x, []. cbn [sort sort_insert rbind forallb hd app].
    rewrite Hx. repeat split; auto.
  - destruct (IH ltac:(discriminate) Hrest)
      as [s [pre [best [post [Hs [Himg [Hhd [Hsplit [Hb [Hpre Hpost]]]]]]]]]].
    cbn [sort] in *. rewrite Hs. cbn [rbind].
    destruct (sort_insert_images x s Hx Himg) as [out [Hout [Hio Hh]]].
    destruct s as [|y s'].
    { cbn in Hhd. subst best. discriminate. }
    cbn [hd] in Hhd. subst y.
    destruct (num_pos (Fin (gap x - gap best))) eqn:E.
    + apply num_pos_sub in E.
      exists out, (x :: pre), best, post. rewrite Hsplit.
      repeat split; auto.
    + assert (Hle : gap x <= gap best).
      { destruct (Qlt_le_dec (gap best) (gap x)) as [Hlt|Hle]; [|assumption].
        apply num_pos_sub in Hlt. congruence. }
      exists out, [], x, (x' :: rest'). rewrite Hsplit.
      repeat split; auto.
      apply Forall_app. split.
      * eapply Forall_impl; [|exact Hpre]. cbv beta. intros a Ha. lra.
      * constructor; [assumption|].
        eapply Forall_impl; [|exact Hpost]. cbv beta. intros a Ha. lra.
Qed.

End Exact.

(** C8, as amended.  [pickImage] gives the empty string for a value that
    is not an array and for the empty array.  For a non-empty array of
    images (objects whose width and height are integers of magnitude at
    most 2^52, on which the subtraction of doubles is exact) it does not
    throw, and it selects the first image, in array order, among those
    whose |width - height| is least: the result is the [url] of that image
    when it is truthy, and otherwise the [url] of the first image of the
    array or, when that is falsy too, the empty string. *)
Theorem pickImage_most_square :
  (forall images, is_array images = false -> pickImage images = Ok (VStr "")) /\
  pickImage (VArr []) = Ok (VStr "") /\
  (subtracts_exactly ->
   forall items,
     items <> [] -> forallb is_image items = true ->
     exists pre best post,
       items = pre ++ best :: post /\
       Forall (fun a => gap best < gap a) pre /\
       Forall (fun a => gap best <= gap a) post /\
       pickImage (VArr items) =
         Ok (if truthy (member best "url") then member best "url"
             else or_else (member (hd VUndefined items) "url") (VStr ""))).
Proof.
  split; [|split].
  - intros images H. destruct images; try reflexivity. discriminate.
  - reflexivity.
  - intros exact items Hne Hall.
    destruct (sort_images_head exact items Hne Hall)
      as [s [pre [best [post [Hs [_ [Hhd [Hsplit [Hb [Hpre Hpost]]]]]]]]]].
    exists pre, best, post. repeat split; auto.
    destruct items as [|first rest]; [congruence|].
    cbn [pickImage]. rewrite Hs. cbn [rbind hd]. rewrite Hhd.
    destruct (image_inv best Hb) as [fb [w [h [-> _]]]].
    cbn [get_opt nullish].
    destruct (truthy (member (VObj fb) "url")); [reflexivity|].
    cbn [forallb] in Hall. apply andb_true_iff in Hall as [Hf _].
    destruct (image_inv first Hf) as [ff [w' [h' [-> _]]]].
    reflexivity.
Qed.

End PickImage.

(* ================================================================== *)
(** * Sets of values *)
(* ================================================================== *)

Lemma SameValueZero_sym (x y : value) :
  SameValueZero x y = SameValueZero y x.
Proof.
  destruct x as [| |a|[|a]|s| |], y as [| |b|[|b]|t| |]; cbn; try reflexivity.
  - now destruct a, b.
  - destruct (Qeq_bool a b) eqn:E, (Qeq_bool b a) eqn:E'; try reflexivity.
    + apply Qeq_bool_iff in E. symmetry in E. apply Qeq_bool_iff in E. congruence.
    + apply Qeq_bool_iff in E'. symmetry in E'. apply Qeq_bool_iff in E'. congruence.
  - apply String.eqb_sym.
Qed.

Lemma SameValueZero_trans (x y z : value) :
  SameValueZero x y = true -> SameValueZero y z = true ->
  SameValueZero x z = true.
Proof.
  destruct x as [| |a|[|a]|s| |], y as [| |b|[|b]|t| |], z as [| |c|[|c]|u| |];
    cbn; try congruence.
  - destruct a, b, c; cbn; congruence.
  - rewrite !Qeq_bool_iff. intros H1 H2. now rewrite H1.
  - rewrite !String.eqb_eq. congruence.
Qed.

(** Values that are the same are the same as the same values. *)
Lemma SameValueZero_compat (a b x : value) :
  SameValueZero a b = true -> SameValueZero a x = SameValueZero b x.
Proof.
  intros H.
  destruct (SameValueZero a x) eqn:Ea, (SameValueZero b x) eqn:Eb;
    try reflexivity.
  - rewrite SameValueZero_sym in H.
    now rewrite (SameValueZero_trans b a x H Ea) in Eb.
  - now rewrite (SameValueZero_trans a b x H Eb) in Ea.
Qed.

Lemma filter_filter_comm {A} (p q : A -> bool) (l : list A) :
  filter p (filter q l) = filter q (filter p l).
Proof.
  induction l as [|a l IH]; [reflexivity|]. cbn.
  destruct (p a) eqn:Ep, (q a) eqn:Eq; cbn; rewrite ?Ep, ?Eq, IH; reflexivity.
Qed.

Lemma filter_absorb {A} (p q : A -> bool) (l : list A) :
  (forall y, p y = true -> q y = true) ->
  filter p (filter q l) = filter p l.
Proof.
  intros H. induction l as [|a l IH]; [reflexivity|]. cbn.
  destruct (q a) eqn:Eq; cbn.
  - now rewrite IH.
  - destruct (p a) eqn:Ep; [|assumption].
    apply H in Ep. congruence.
Qed.

(** A test that does not tell the same values apart commutes with the
    removal of duplicates. *)
Lemma keep_first_filter (p : value -> bool) (l : list value) :
  (forall a b, SameValueZero a b = true -> p a = p b) ->
  keep_first (filter p l) = filter p (keep_first l).
Proof.
  intros Hp. induction l as [|a l IH]; [reflexivity|]. cbn [filter keep_first].
  destruct (p a) eqn:Ea.
  - cbn [keep_first]. rewrite IH. f_equal. apply filter_filter_comm.
  - rewrite IH. symmetry. apply filter_absorb.
    intros y Hy. destruct (SameValueZero y a) eqn:E; [|reflexivity].
    apply Hp in E. congruence.
Qed.

Lemma filter_both {A} (p q : A -> bool) (l : list A) :
  filter (fun y => p y && q y) l = filter p (filter q l).
Proof.
  induction l as [|a l IH]; [reflexivity|]. cbn.
  destruct (q a) eqn:Eq; cbn; destruct (p a); cbn; now rewrite IH.
Qed.

(** Inserting into a [Set] in order is removing duplicates from the
    front. *)
Lemma fold_Set_add (l acc : list value) :
  fold_left Set_add l acc =
  acc ++ keep_first
           (filter (fun y => negb (existsb (SameValueZero y) acc)) l).
Proof.
  revert acc. induction l as [|x l IH]; intros acc.
  - cbn. now rewrite app_nil_r.
  - cbn [fold_left filter]. unfold Set_add at 2.
    destruct (existsb (SameValueZero x) acc) eqn:E; cbn [negb].
    + apply IH.
    + rewrite IH. rewrite <- app_assoc. cbn [app keep_first]. do 2 f_equal.
      rewrite <- keep_first_filter.
      * f_equal. rewrite <- filter_both. apply filter_ext. intros y.
        rewrite existsb_app. cbn [existsb].
        rewrite orb_false_r, negb_orb. apply andb_comm.
      * intros a b Hab. f_equal. now apply SameValueZero_compat.
Qed.

Lemma Set_of_keep_first (l : list value) : Set_of l = keep_first l.
Proof.
  unfold Set_of. rewrite fold_Set_add. cbn [app existsb negb].
  f_equal. induction l as [|x l IH]; [reflexivity|]. cbn. now rewrite IH.
Qed.

Lemma keep_first_incl (l : list value) : incl (keep_first l) l.
Proof.
  induction l as [|x l IH]; [easy|]. cbn [keep_first].
  intros y [<-|Hy]; [now left|]. right. apply IH.
  now apply filter_In in Hy.
Qed.

Lemma firstn_In {A} (n : nat) (l : list A) (x : A) :
  In x (firstn n l) -> In x l.
Proof.
  revert n. induction l as [|a l IH]; intros [|n]; cbn; try easy.
  intros [->|H]; [now left | right; eauto].
Qed.

Lemma distinct_filter (p : value -> bool) (l : list value) :
  distinct l -> distinct (filter p l).
Proof.
  unfold distinct. induction 1 as [|a l Ha Hl IH]; cbn; [constructor|].
  destruct (p a); [|assumption].
  constructor; [|assumption].
  rewrite Forall_forall in *. intros y Hy. apply Ha.
  now apply filter_In in Hy.
Qed.

Lemma distinct_firstn (n : nat) (l : list value) :
  distinct l -> distinct (firstn n l).
Proof.
  unfold distinct. intros H. revert n.
  induction H as [|a l Ha Hl IH]; intros [|n]; cbn; try constructor.
  - rewrite Forall_forall in *. intros y Hy. apply Ha.
    eapply firstn_In; eassumption.
  - apply IH.
Qed.

Lemma keep_first_distinct (l : list value) : distinct (keep_first l).
Proof.
  induction l as [|x l IH]; cbn [keep_first]; [constructor|].
  constructor; [|now apply distinct_filter].
  rewrite Forall_forall. intros y Hy. apply filter_In in Hy as [_ Hy].
  now apply negb_true_iff in Hy.
Qed.

(* ================================================================== *)
(** * [GET /suggest] *)
(* ================================================================== *)

Module TrimFacts.
Import JsString.

Lemma trimStart_blank (s : string) : blank s = true -> trimStart s = "".
Proof.
  induction s as [|c s IH]; cbn; [reflexivity|].
  destruct (is_space c); cbn; [assumption | discriminate].
Qed.

Lemma trimStart_not_blank (s : string) :
  blank s = false ->
  exists c s', trimStart s = String c s' /\ is_space c = false.
Proof.
  induction s as [|c s IH]; cbn; [discriminate|].
  destruct (is_space c) eqn:E; cbn; [assumption|].
  intros _. now exists c, s.
Qed.

(** [s.trim()] is empty exactly when [s] is empty or all white space. *)
Lemma trim_empty (s : string) : (trim s =? "") = blank s.
Proof.
  unfold trim. destruct (blank s) eqn:E.
  - now rewrite trimStart_blank.
  - destruct (trimStart_not_blank s E) as [c [s' [-> Hc]]].
    cbn [trimEnd]. rewrite Hc. now destruct (trimEnd s').
Qed.

End TrimFacts.

Section Suggest.

Context {P : Platform}.
Variable net : string -> fetch_result.

Lemma names_of_entries (v : value) (names : list value) :
  entry_names v = Some names ->
  names_of (default_to v (VArr [])) = Ok names.
Proof.
  destruct v as [| | | | |items|]; cbn; try discriminate.
  - now intros [= <-].
  - destruct (forallb _ items) eqn:E; [|discriminate]. intros [= <-].
    induction items as [|x items IH]; [reflexivity|].
    cbn [forallb] in E. apply andb_true_iff in E as [Hx E].
    cbn [mapM map]. unfold get at 1. apply negb_true_iff in Hx. rewrite Hx.
    cbn [rbind]. now rewrite (IH E).
Qed.

Lemma firstn_Forall {A} (Q : A -> Prop) (n : nat) (l : list A) :
  Forall Q l -> Forall Q (firstn n l).
Proof.
  rewrite !Forall_forall. intros H x Hx. apply H.
  eapply firstn_In; eassumption.
Qed.

Lemma normalizeSuggestions_no_embedded (j : value) :
  nullish j = false -> truthy (member j "_embedded") = false ->
  normalizeSuggestions j = Ok [].
Proof.
  intros Hj He. unfold normalizeSuggestions, get. rewrite Hj. cbn [rbind].
  now rewrite He.
Qed.

(** C6, as amended.  For a suggest payload (not [null]) with no
    [_embedded], [normalizeSuggestions] is the empty list.  When
    [_embedded] is there and each of its lists [attractions], [venues]
    and [events] is absent or an array of entries (none [null]), the
    result is the [name]s of the attractions, then of the venues, then of
    the events, each list in its order, with duplicates removed and first
    occurrences kept, cut to the first 10: no two of its elements are the
    same value, it has at most 10 elements, and every element is a string
    when every name is one. *)
Theorem normalizeSuggestions_flattens (j : value) :
  nullish j = false ->
  (truthy (member j "_embedded") = false ->
   normalizeSuggestions j = Ok []) /\
  (forall attractions venues events,
     truthy (member j "_embedded") = true ->
     entry_names (member (member j "_embedded") "attractions")
       = Some attractions ->
     entry_names (member (member j "_embedded") "venues") = Some venues ->
     entry_names (member (member j "_embedded") "events") = Some events ->
     let unique := firstn 10 (keep_first (attractions ++ venues ++ events)) in
     normalizeSuggestions j = Ok unique /\
     distinct unique /\
     (length unique <= 10)%nat /\
     (Forall (fun v => is_string v = true) (attractions ++ venues ++ events) ->
      Forall (fun v => is_string v = true) unique)).
Proof.
  intros Hj. split.
  - now apply normalizeSuggestions_no_embedded.
  - unfold normalizeSuggestions, get. rewrite Hj. cbn [rbind].
    intros a v e -> Ha Hv He.
    rewrite (names_of_entries _ _ Ha), (names_of_entries _ _ Hv),
      (names_of_entries _ _ He).
    cbn [rbind]. rewrite Set_of_keep_first. repeat split.
    + apply distinct_firstn, keep_first_distinct.
    + apply firstn_le_length.
    + intros Hs. apply firstn_Forall.
      rewrite Forall_forall in *. intros x Hx. apply Hs.
      now apply keep_first_incl.
Qed.

Lemma suggest_fetches (query : value) (s : string) :
  default_to (member query "keyword") (VStr "") = VStr s ->
  JsString.blank s = false ->
  handle (suggest_route net query) =
  match net (suggest_url s) with
  | NetworkFailure => (Next FetchFailed, [suggest_url s])
  | Response status body =>
      if ok status then
        match body with
        | None => (Next SyntaxError, [suggest_url s])
        | Some j =>
            match normalizeSuggestions j with
            | Ok unique => (Replied 200 (VArr unique), [suggest_url s])
            | Throw e => (Next e, [suggest_url s])
            end
        end
      else (Next (UpstreamError "TM suggest failed" status), [suggest_url s])
  end.
Proof.
  intros Hk Hb. unfold handle, suggest_route. rewrite Hk.
  unfold bind, lift, trim. rewrite TrimFacts.trim_empty, Hb.
  cbn [ToString]. unfold fetch. fold (suggest_url s).
  destruct (net (suggest_url s)) as [|status body]; [reflexivity|].
  cbn [fst snd app]. destruct (ok status); cbn [negb]; [|reflexivity].
  unfold json. cbn [snd]. destruct body as [j|]; [|reflexivity].
  unfold ret. destruct (normalizeSuggestions j); reflexivity.
Qed.

(** C5, as amended.  For a keyword that is missing, empty or all white
    space the suggest route replies with the empty list and fetches
    nothing.  For any other keyword string it fetches the suggest URL
    once; it replies with the empty list when the upstream answers with
    a payload that has no [_embedded]; and it fails, passing the
    exception on, when the fetch fails, when the status is not in
    200-299, and when the body is not JSON. *)
Theorem suggest_blank_or_upstream (query : value) (s : string) :
  default_to (member query "keyword") (VStr "") = VStr s ->
  (JsString.blank s = true ->
   handle (suggest_route net query) = (Replied 200 (VArr []), [])) /\
  (JsString.blank s = false ->
   (forall status j,
      net (suggest_url s) = Response status (Some j) -> ok status = true ->
      nullish j = false -> truthy (member j "_embedded") = false ->
      handle (suggest_route net query)
      = (Replied 200 (VArr []), [suggest_url s])) /\
   (net (suggest_url s) = NetworkFailure ->
    handle (suggest_route net query)
    = (Next FetchFailed, [suggest_url s])) /\
   (forall status body,
      net (suggest_url s) = Response status body -> ok status = false ->
      handle (suggest_route net query)
      = (Next (UpstreamError "TM suggest failed" status), [suggest_url s])) /\
   (forall status,
      net (suggest_url s) = Response status None -> ok status = true ->
      handle (suggest_route net query)
      = (Next SyntaxError, [suggest_url s]))).
Proof.
  intros Hk. split.
  - intros Hb. unfold handle, suggest_route. rewrite Hk.
    unfold bind, lift, trim. now rewrite TrimFacts.trim_empty, Hb.
  - intros Hb. rewrite (suggest_fetches query s Hk Hb). repeat split.
    + intros status j -> -> Hj He.
      now rewrite (normalizeSuggestions_no_embedded j Hj He).
    + now intros ->.
    + now intros status body -> ->.
    + now intros status -> ->.
Qed.

End Suggest.

(* ================================================================== *)
(** * Conversions of primitive values *)
(* ================================================================== *)

Section Conversions.

Context {P : Platform}.

Lemma ToString_primitive (v : value) :
  is_primitive v = true -> exists s, ToString v = Ok s.
Proof.
  destruct v as [| |[|]| | | |]; cbn; try discriminate; eauto.
Qed.

Lemma ToNumber_primitive (v : value) :
  is_primitive v = true -> exists n, ToNumber v = Ok n.
Proof.
  destruct v as [| |[|]| | | |]; cbn; try discriminate; eauto.
Qed.

Lemma join_primitives (sep : string) (items : list value) :
  forallb is_primitive items = true -> exists s, join sep items = Ok s.
Proof.
  intros H. unfold join.
  assert (exists texts,
            mapM (fun v => if nullish v then Ok "" else ToString v) items
            = Ok texts) as [texts ->].
  { induction items as [|x items IH]; [now exists []|].
    cbn [forallb] in H. apply andb_true_iff in H as [Hx H].
    destruct (IH H) as [texts Ht]. cbn [mapM]. rewrite Ht.
    destruct (nullish x); [now eexists|].
    destruct (ToString_primitive x Hx) as [s ->]. now eexists. }
  now eexists.
Qed.

Lemma forallb_filter {A} (p q : A -> bool) (l : list A) :
  forallb p l = true -> forallb p (filter q l) = true.
Proof.
  induction l as [|a l IH]; [reflexivity|]. cbn.
  intros H. apply andb_true_iff in H as [Ha H].
  destruct (q a); cbn; [rewrite Ha|]; auto.
Qed.

Lemma truthy_not_nullish (v : value) : truthy v = true -> nullish v = false.
Proof. destruct v; cbn; congruence. Qed.

Lemma truthy_get_opt (v : value) (k : string) :
  truthy (get_opt v k) = true -> nullish v = false.
Proof. unfold get_opt. destruct (nullish v); cbn; congruence. Qed.

End Conversions.

(* ================================================================== *)
(** * [GET /search]: validation and the search query *)
(* ================================================================== *)

Section Search.

Context {P : Platform}.
Variable net : string -> fetch_result.

Lemma venue_route_run (query : value) (name : string) :
  member query "name" = VStr name -> name <> "" ->
  handle (venue_route net query) =
  match net (venue_url name) with
  | NetworkFailure => (Next FetchFailed, [venue_url name])
  | Response status body =>
      if ok status then
        match body with
        | None => (Next SyntaxError, [venue_url name])
        | Some j =>
            match normalizeVenue j with
            | Ok out => (Replied 200 out, [venue_url name])
            | Throw e => (Next e, [venue_url name])
            end
        end
      else (Next (UpstreamError "TM venue failed" status), [venue_url name])
  end.
Proof.
  intros Hn Hne. unfold handle, venue_route. rewrite Hn.
  cbn [truthy]. apply String.eqb_neq in Hne. rewrite Hne. cbn [negb].
  unfold bind, lift. cbn [ToString]. unfold fetch. fold (venue_url name).
  destruct (net (venue_url name)) as [|status body]; [reflexivity|].
  cbn [fst snd app]. destruct (ok status); cbn [negb]; [|reflexivity].
  unfold json. cbn [snd]. destruct body as [j|]; [|reflexivity].
  unfold ret. destruct (normalizeVenue j); reflexivity.
Qed.

Lemma event_route_run (id : string) :
  handle (event_route net id) =
  match net (event_url id) with
  | NetworkFailure => (Next FetchFailed, [event_url id])
  | Response status body =>
      if ok status then
        match body with
        | None => (Next SyntaxError, [event_url id])
        | Some e =>
            match normalizeEventDetail e with
            | Ok details => (Replied 200 details, [event_url id])
            | Throw err => (Next err, [event_url id])
            end
        end
      else (Replied status (error_body "event not found"), [event_url id])
  end.
Proof.
  unfold handle, event_route, bind, lift, fetch. fold (event_url id).
  destruct (net (event_url id)) as [|status body]; [reflexivity|].
  cbn [fst snd app]. destruct (ok status); cbn [negb]; [|reflexivity].
  unfold json. cbn [snd]. destruct body as [j|]; [|reflexivity].
  unfold ret. destruct (normalizeEventDetail j); reflexivity.
Qed.

(** C4.  A search whose keyword is empty or missing, or whose [lat] or
    [lng] is missing, and a venue lookup whose [name] is missing, are
    answered at once with status 400 and an error message, and nothing is
    fetched. *)
Theorem validation_before_fetch :
  (forall query,
     default_to (member query "keyword") (VStr "") = VStr "" \/
     member query "lat" = VUndefined \/
     member query "lng" = VUndefined ->
     exists message,
       handle (search_route net query)
       = (Replied 400 (error_body message), [])) /\
  (forall query,
     member query "name" = VUndefined ->
     handle (venue_route net query)
     = (Replied 400 (error_body "name is required"), [])).
Proof.
  split.
  - intros query H. unfold handle, search_route.
    destruct (truthy (default_to (member query "keyword") (VStr ""))) eqn:Ek;
      cbn [negb]; [|now eexists].
    destruct H as [H | [H | H]].
    + rewrite H in Ek. discriminate.
    + rewrite H. cbn. now eexists.
    + rewrite H. cbn [truthy negb]. rewrite orb_true_r. now eexists.
  - intros query H. unfold handle, venue_route. now rewrite H.
Qed.

Lemma search_route_run (query : value) (keyword lat lng : string) :
  member query "keyword" = VStr keyword -> keyword <> "" ->
  member query "lat" = VStr lat -> lat <> "" ->
  member query "lng" = VStr lng -> lng <> "" ->
  handle (search_route net query) =
  match buildSearchQuery (VStr keyword)
          (default_to (member query "distance") (VStr "10"))
          (default_to (member query "category") (VStr "Default"))
          (VStr lat) (VStr lng) with
  | Throw e => (Next e, [])
  | Ok params =>
      match net (search_url params) with
      | NetworkFailure => (Next FetchFailed, [search_url params])
      | Response status body =>
          if ok status then
            match body with
            | None => (Next SyntaxError, [search_url params])
            | Some j =>
                match normalizeSearchResults j with
                | Ok events => (Replied 200 (VArr events), [search_url params])
                | Throw e => (Next e, [search_url params])
                end
            end
          else (Next (UpstreamError "TM search failed" status),
                [search_url params])
      end
  end.
Proof.
  intros Hk Hkne Hlat Hlatne Hlng Hlngne.
  apply String.eqb_neq in Hkne, Hlatne, Hlngne.
  unfold handle, search_route. rewrite Hk, Hlat, Hlng.
  cbn [default_to truthy]. rewrite Hkne, Hlatne, Hlngne. cbn [negb orb].
  unfold bind, lift.
  destruct (buildSearchQuery _ _ _ _ _) as [params|e]; [|reflexivity].
  unfold fetch. fold (search_url params).
  destruct (net (search_url params)) as [|status body]; [reflexivity|].
  cbn [fst snd app]. destruct (ok status); cbn [negb]; [|reflexivity].
  unfold json. cbn [snd]. destruct body as [j|]; [|reflexivity].
  unfold ret. destruct (normalizeSearchResults j); reflexivity.
Qed.

(** C10.  A search with a keyword and with any non-empty strings as
    [lat] and [lng] passes validation, whatever the strings are: the
    reply is never the 400 of the validation.  The route goes on to
    fetch, once, the search URL whose [geoPoint] is the geohash, at
    precision 7, of [parseFloat(lat)] and [parseFloat(lng)] (for a
    [distance] and a [category] that are primitives, so that printing
    them cannot throw). *)
Theorem search_coordinates_unchecked (query : value) (keyword lat lng : string) :
  member query "keyword" = VStr keyword -> keyword <> "" ->
  member query "lat" = VStr lat -> lat <> "" ->
  member query "lng" = VStr lng -> lng <> "" ->
  (forall message,
     fst (handle (search_route net query))
     <> Replied 400 (error_body message)) /\
  (is_primitive (member query "distance") = true ->
   is_primitive (member query "category") = true ->
   exists radius segment,
     let params :=
       [ ("apikey", api_key); ("keyword", keyword); ("radius", radius);
         ("unit", "miles");
         ("geoPoint",
            ngeohash_encode (parse_float lat) (parse_float lng) 7) ]
       ++ segment in
     buildSearchQuery (VStr keyword)
       (default_to (member query "distance") (VStr "10"))
       (default_to (member query "category") (VStr "Default"))
       (VStr lat) (VStr lng) = Ok params /\
     snd (handle (search_route net query)) = [search_url params]).
Proof.
  intros Hk Hkne Hlat Hlatne Hlng Hlngne.
  rewrite (search_route_run query keyword lat lng Hk Hkne Hlat Hlatne Hlng Hlngne).
  set (distance := default_to (member query "distance") (VStr "10")).
  set (category := default_to (member query "category") (VStr "Default")).
  split.
  - intros message.
    destruct (buildSearchQuery _ _ _ _ _) as [params|e]; [|discriminate].
    destruct (net (search_url params)) as [|status body]; [discriminate|].
    destruct (ok status); [|discriminate].
    destruct body as [j|]; [|discriminate].
    destruct (normalizeSearchResults j); discriminate.
  - intros Hd Hc.
    assert (Hd' : is_primitive (or_else distance (VStr "10")) = true).
    { unfold or_else. destruct (truthy distance); [|reflexivity].
      subst distance. now destruct (member query "distance"). }
    assert (Hc' : is_primitive category = true).
    { subst category. now destruct (member query "category"). }
    destruct (ToString_primitive _ Hd') as [radius Hr].
    destruct (ToString_primitive _ Hc') as [cat Hcat].
    assert (exists segment, segment_of category = Ok segment) as [seg Hseg].
    { unfold segment_of. rewrite Hcat. cbn [rbind].
      destruct (own_segment cat SEGMENT_IDS); now eexists. }
    exists radius,
      (match seg with Some id => [("segmentId", id)] | None => [] end).
    cbv zeta.
    assert (Hq : buildSearchQuery (VStr keyword) distance category
                   (VStr lat) (VStr lng)
                 = Ok ([ ("apikey", api_key); ("keyword", keyword);
                         ("radius", radius); ("unit", "miles");
                         ("geoPoint",
                            ngeohash_encode (parse_float lat)
                              (parse_float lng) 7) ]
                       ++ match seg with
                          | Some id => [("segmentId", id)]
                          | None => []
                          end)).
    { unfold buildSearchQuery, parseFloat. cbn [ToString rbind].
      rewrite Hr. cbn [rbind]. rewrite Hseg. cbn [rbind].
      destruct seg; [reflexivity | now rewrite app_nil_r]. }
    split; [exact Hq|]. rewrite Hq.
    match goal with |- context [net ?u] => destruct (net u) as [|status body] end;
      [reflexivity|].
    destruct (ok status); [|reflexivity].
    destruct body as [j|]; [|reflexivity].
    destruct (normalizeSearchResults j); reflexivity.
Qed.

(** C3, as amended.  When [_embedded.events] of a search payload is
    absent or falsy, [normalizeSearchResults] is the empty list, and a
    valid search that the upstream answers with this payload replies
    200 with the empty list.  When it is truthy and not an array (an
    object, a non-empty string, a number other than 0, [true]), the call
    of [map] throws a [TypeError], and the search route passes it to
    [next]. *)
Theorem normalizeSearchResults_events (j : value) :
  (truthy (path j ["_embedded"; "events"]) = false ->
   normalizeSearchResults j = Ok []) /\
  (truthy (path j ["_embedded"; "events"]) = true ->
   is_array (path j ["_embedded"; "events"]) = false ->
   normalizeSearchResults j = Throw TypeError) /\
  (forall query keyword lat lng params status,
     member query "keyword" = VStr keyword -> keyword <> "" ->
     member query "lat" = VStr lat -> lat <> "" ->
     member query "lng" = VStr lng -> lng <> "" ->
     buildSearchQuery (VStr keyword)
       (default_to (member query "distance") (VStr "10"))
       (default_to (member query "category") (VStr "Default"))
       (VStr lat) (VStr lng) = Ok params ->
     net (search_url params) = Response status (Some j) ->
     ok status = true ->
     (truthy (path j ["_embedded"; "events"]) = false ->
      handle (search_route net query)
      = (Replied 200 (VArr []), [search_url params])) /\
     (truthy (path j ["_embedded"; "events"]) = true ->
      is_array (path j ["_embedded"; "events"]) = false ->
      handle (search_route net query)
      = (Next TypeError, [search_url params]))).
Proof.
  assert (Hfalsy : truthy (path j ["_embedded"; "events"]) = false ->
                   normalizeSearchResults j = Ok []).
  { unfold normalizeSearchResults, or_else. intros ->. reflexivity. }
  assert (Hthrow : truthy (path j ["_embedded"; "events"]) = true ->
                   is_array (path j ["_embedded"; "events"]) = false ->
                   normalizeSearchResults j = Throw TypeError).
  { unfold normalizeSearchResults, or_else. intros -> H.
    now destruct (path j ["_embedded"; "events"]). }
  split; [exact Hfalsy | split; [exact Hthrow|]].
  intros query keyword lat lng params status
    Hk Hkne Hlat Hlatne Hlng Hlngne Hq Hnet Hok.
  rewrite (search_route_run query keyword lat lng
             Hk Hkne Hlat Hlatne Hlng Hlngne), Hq, Hnet, Hok.
  split.
  - intros H. now rewrite (Hfalsy H).
  - intros H Harr. now rewrite (Hthrow H Harr).
Qed.

(** A venue that is there never normalizes to [null]. *)
Lemma normalizeVenue_null (j : value) :
  normalizeVenue j = Ok VNull ->
  truthy (path j ["_embedded"; "venues"; "0"]) = false.
Proof.
  unfold normalizeVenue.
  destruct (truthy (path j ["_embedded"; "venues"; "0"])); [|reflexivity].
  cbn [negb].
  destruct (get _ "name") as [name|e]; [|discriminate]. cbn [rbind].
  destruct (fullAddress _) as [address|e]; [|discriminate]. cbn [rbind].
  destruct (coordinate _ "latitude") as [lat|e]; [|discriminate].
  cbn [rbind].
  destruct (coordinate _ "longitude") as [lng|e]; [|discriminate].
  cbn [rbind].
  destruct (googleMapsUrl _) as [maps|e]; discriminate.
Qed.

(** C1, as amended.  The event route answers every upstream status
    outside 200-299, a 5xx as much as a 404, with that status and the
    body [{error: 'event not found'}]; a failed fetch and a body that is
    not JSON pass on as exceptions; a JSON body with a status in 200-299
    is answered with the details, or passes on the exception of their
    normalization.  The venue route passes on as an exception every
    upstream status outside 200-299, a 404 included, as well as a failed
    fetch and a body that is not JSON; a JSON body with a status in
    200-299 is answered with its normalization; and the route replies
    [null] when, and only when, the upstream answers with a status in
    200-299 and a payload that embeds no venue. *)
Theorem upstream_failures :
  (forall id,
     (net (event_url id) = NetworkFailure ->
      handle (event_route net id) = (Next FetchFailed, [event_url id])) /\
     (forall status body,
        net (event_url id) = Response status body -> ok status = false ->
        handle (event_route net id)
        = (Replied status (error_body "event not found"), [event_url id])) /\
     (forall status,
        net (event_url id) = Response status None -> ok status = true ->
        handle (event_route net id) = (Next SyntaxError, [event_url id])) /\
     (forall status e,
        net (event_url id) = Response status (Some e) -> ok status = true ->
        handle (event_route net id)
        = match normalizeEventDetail e with
          | Ok details => (Replied 200 details, [event_url id])
          | Throw err => (Next err, [event_url id])
          end)) /\
  (forall query name,
     member query "name" = VStr name -> name <> "" ->
     (net (venue_url name) = NetworkFailure ->
      handle (venue_route net query) = (Next FetchFailed, [venue_url name])) /\
     (forall status body,
        net (venue_url name) = Response status body -> ok status = false ->
        handle (venue_route net query)
        = (Next (UpstreamError "TM venue failed" status), [venue_url name])) /\
     (forall status,
        net (venue_url name) = Response status None -> ok status = true ->
        handle (venue_route net query) = (Next SyntaxError, [venue_url name])) /\
     (forall status j,
        net (venue_url name) = Response status (Some j) -> ok status = true ->
        truthy (path j ["_embedded"; "venues"; "0"]) = false ->
        handle (venue_route net query) = (Replied 200 VNull, [venue_url name])) /\
     (forall status j,
        net (venue_url name) = Response status (Some j) -> ok status = true ->
        handle (venue_route net query)
        = match normalizeVenue j with
          | Ok out => (Replied 200 out, [venue_url name])
          | Throw err => (Next err, [venue_url name])
          end) /\
     (forall status,
        fst (handle (venue_route net query)) = Replied status VNull ->
        exists upstream j,
          net (venue_url name) = Response upstream (Some j) /\
          ok upstream = true /\
          truthy (path j ["_embedded"; "venues"; "0"]) = false)).
Proof.
  split.
  - intros id. rewrite event_route_run. repeat split.
    + now intros ->.
    + now intros status body -> ->.
    + now intros status -> ->.
    + now intros status e -> ->.
  - intros query name Hn Hne. rewrite (venue_route_run query name Hn Hne).
    repeat split.
    + now intros ->.
    + now intros status body -> ->.
    + now intros status -> ->.
    + intros status j -> -> Hv. unfold normalizeVenue. now rewrite Hv.
    + now intros status j -> ->.
    + intros status.
      destruct (net (venue_url name)) as [|upstream body]; [discriminate|].
      destruct (ok upstream) eqn:Hok; [|discriminate].
      destruct body as [j|]; [|discriminate].
      destruct (normalizeVenue j) as [out|err] eqn:Hout; [|discriminate].
      cbn [fst]. intros [= _ ->].
      exists upstream, j. repeat split; [assumption|].
      now apply normalizeVenue_null.
Qed.

End Search.

(* ================================================================== *)
(** * [GET /venue]: the venue record *)
(* ================================================================== *)

Section Venue.

Context {P : Platform}.

Lemma fullAddress_total (venue : value) :
  address_ok venue = true -> exists s, fullAddress venue = Ok s.
Proof.
  unfold address_ok, fullAddress. intros H.
  repeat (apply andb_true_iff in H as [H ?]).
  destruct (truthy venue); cbn [negb]; [|now eexists].
  match goal with
  | |- context [join ", " (filter truthy ?l)] =>
      destruct (join_primitives ", " (filter truthy l)) as [cs ->]
  end.
  { apply forallb_filter. cbn [forallb].
    repeat (apply andb_true_iff; split); auto. }
  cbn [rbind]. apply join_primitives, forallb_filter. cbn [forallb].
  repeat (apply andb_true_iff; split); auto.
Qed.

(** A truthy [v?.a?.b] is what [v.a.b] reads. *)
Lemma truthy_path2 (v : value) (a b : string) :
  truthy (path v [a; b]) = true ->
  get v a = Ok (member v a) /\ get (member v a) b = Ok (path v [a; b]).
Proof.
  unfold path. cbn [fold_left]. intros H.
  pose proof (truthy_get_opt _ _ H) as H1.
  assert (H0 : nullish v = false).
  { unfold get_opt in H1. destruct (nullish v); [discriminate | reflexivity]. }
  unfold get, get_opt in *. rewrite H0 in *. now rewrite H1.
Qed.

Lemma coordinate_value (v : value) (k : string) :
  is_primitive (path v ["location"; k]) = true ->
  exists n,
    ToNumber (path v ["location"; k]) = Ok n /\
    coordinate v k =
      Ok (if truthy (path v ["location"; k]) then VNum n else VNull).
Proof.
  intros Hp. destruct (ToNumber_primitive _ Hp) as [n Hn]. exists n.
  split; [assumption|]. unfold coordinate.
  destruct (truthy (path v ["location"; k])) eqn:E; [|reflexivity].
  destruct (truthy_path2 v "location" k E) as [-> H2]. cbn [rbind].
  rewrite H2. cbn [rbind]. now rewrite Hn.
Qed.

Lemma googleMapsUrl_value (v : value) :
  is_primitive (path v ["location"; "latitude"]) = true ->
  is_primitive (path v ["location"; "longitude"]) = true ->
  exists url,
    googleMapsUrl v =
      Ok (if truthy (path v ["location"; "latitude"])
             && truthy (path v ["location"; "longitude"])
          then VStr url else VNull).
Proof.
  intros Ha Ho. unfold googleMapsUrl.
  destruct (ToString_primitive _ Ha) as [lat Hlat].
  destruct (ToString_primitive _ Ho) as [lng Hlng].
  destruct (truthy (path v ["location"; "latitude"])) eqn:Ea; cbn [andb];
    [|now exists ""].
  destruct (truthy (path v ["location"; "longitude"])) eqn:Eo;
    [|now exists ""].
  destruct (truthy_path2 v "location" "latitude" Ea) as [-> H2].
  destruct (truthy_path2 v "location" "longitude" Eo) as [_ H3].
  cbn [rbind]. rewrite H2, H3. cbn [rbind]. rewrite Hlat, Hlng. cbn [rbind].
  now eexists.
Qed.

(** C7, as amended.  [normalizeVenue] is [null] when the payload embeds
    no venue.  Otherwise (the parts of the venue that are printed being
    primitives) it returns a record in which [location.lat] is [null]
    exactly when the upstream [latitude] is falsy (absent, [null], the
    empty string, zero, [false]) and is the number [Number(latitude)]
    when it is truthy; the same holds for [location.lng] and
    [longitude]; and [googleMapsUrl] is not [null] exactly when both
    coordinates are truthy. *)
Theorem normalizeVenue_coordinates (j : value) :
  let v := path j ["_embedded"; "venues"; "0"] in
  let latitude := path v ["location"; "latitude"] in
  let longitude := path v ["location"; "longitude"] in
  (truthy v = false -> normalizeVenue j = Ok VNull) /\
  (truthy v = true -> venue_ok v = true ->
   exists out lat lng,
     normalizeVenue j = Ok out /\
     member out "location" = VObj [("lat", lat); ("lng", lng)] /\
     (lat = VNull <-> truthy latitude = false) /\
     (truthy latitude = true ->
      exists n, ToNumber latitude = Ok n /\ lat = VNum n) /\
     (lng = VNull <-> truthy longitude = false) /\
     (truthy longitude = true ->
      exists n, ToNumber longitude = Ok n /\ lng = VNum n) /\
     (member out "googleMapsUrl" <> VNull <->
      truthy latitude = true /\ truthy longitude = true)).
Proof.
  cbv zeta. set (v := path j ["_embedded"; "venues"; "0"]). split.
  - intros H. unfold normalizeVenue. fold v. now rewrite H.
  - intros Hv Hok. unfold venue_ok in Hok.
    apply andb_true_iff in Hok as [Hok Hlng].
    apply andb_true_iff in Hok as [Haddr Hlat].
    destruct (fullAddress_total v Haddr) as [address Ha].
    destruct (coordinate_value v "latitude" Hlat) as [nlat [Hnlat Hclat]].
    destruct (coordinate_value v "longitude" Hlng) as [nlng [Hnlng Hclng]].
    destruct (googleMapsUrl_value v Hlat Hlng) as [url Hurl].
    unfold normalizeVenue. fold v. rewrite Hv. cbn [negb].
    unfold get at 1. rewrite (truthy_not_nullish v Hv). cbn [rbind].
    rewrite Ha. cbn [rbind]. rewrite Hclat, Hclng. cbn [rbind].
    rewrite Hurl. cbn [rbind].
    eexists _, _, _. split; [reflexivity|]. split; [reflexivity|].
    cbn [member assoc String.eqb Ascii.eqb Bool.eqb].
    destruct (truthy (path v ["location"; "latitude"]));
      destruct (truthy (path v ["location"; "longitude"])); cbn [andb];
      repeat split; try congruence; try discriminate; eauto;
      try (intros [? ?]; discriminate); try (intros H; now destruct H).
Qed.

End Venue.

(* ================================================================== *)
(** * The event row and the event details *)
(* ================================================================== *)

Section Events.

Context {P : Platform}.

Lemma squareness_total (a : value) :
  measurable a = true -> exists n, squareness a = Ok n.
Proof.
  unfold measurable, squareness, get. intros H.
  apply andb_true_iff in H as [H Hh]. apply andb_true_iff in H as [Hn Hw].
  apply negb_true_iff in Hn. rewrite Hn. cbn [rbind].
  destruct (ToNumber_primitive _ Hw) as [w ->].
  destruct (ToNumber_primitive _ Hh) as [h ->]. now eexists.
Qed.

Lemma SortCompare_total (a b : value) :
  measurable a = true -> measurable b = true ->
  exists c, SortCompare bySquareness a b = Ok c.
Proof.
  intros Ha Hb. unfold SortCompare, bySquareness.
  destruct (squareness_total a Ha) as [x ->].
  destruct (squareness_total b Hb) as [y ->]. cbn [rbind].
  assert (exists c, match num_sub x y with
                    | NaN => Ok (Fin 0)
                    | Fin _ => Ok (num_sub x y)
                    end = Ok c) as [c Hc]
    by (destruct (num_sub x y); eexists; reflexivity).
  destruct a; try discriminate Ha; destruct b; try discriminate Hb;
    exists c; exact Hc.
Qed.

Lemma sort_insert_total (x : value) (sorted : list value) :
  measurable x = true -> forallb measurable sorted = true ->
  exists out,
    sort_insert bySquareness x sorted = Ok out /\
    forallb measurable out = true.
Proof.
  intros Hx. induction sorted as [|y rest IH]; intros Hall.
  - exists [x]. cbn. now rewrite Hx.
  - cbn [forallb] in Hall. apply andb_true_iff in Hall as [Hy Hrest].
    cbn [sort_insert]. destruct (SortCompare_total x y Hx Hy) as [c ->].
    cbn [rbind]. destruct (num_pos c).
    + destruct (IH Hrest) as [out [-> Hout]].
      exists (y :: out). cbn. now rewrite Hy, Hout.
    + exists (x :: y :: rest). cbn. now rewrite Hx, Hy, Hrest.
Qed.

Lemma sort_total (items : list value) :
  forallb measurable items = true ->
  exists sorted,
    sort bySquareness items = Ok sorted /\ forallb measurable sorted = true.
Proof.
  induction items as [|x rest IH]; intros Hall; [now exists []|].
  cbn [forallb] in Hall. apply andb_true_iff in Hall as [Hx Hrest].
  destruct (IH Hrest) as [s [Hs Hm]]. cbn [sort]. rewrite Hs. cbn [rbind].
  now apply sort_insert_total.
Qed.

(** On an array it can measure, [pickImage] returns, and never [null]
    or [undefined]; without an array it returns the empty string. *)
Lemma pickImage_total (images : value) :
  images_ok images = true ->
  exists url,
    pickImage images = Ok url /\ nullish url = false /\
    (is_array images = false -> url = VStr "").
Proof.
  destruct images as [| | | | |items|]; try (now exists (VStr "")).
  destruct items as [|first rest]; [now exists (VStr "")|].
  cbn [images_ok]. intros Hall.
  destruct (sort_total _ Hall) as [sorted [Hs _]].
  cbn [pickImage]. rewrite Hs. cbn [rbind].
  destruct (truthy (get_opt (hd VUndefined sorted) "url")) eqn:E.
  - eexists. split; [reflexivity|]. split; [|discriminate].
    now apply truthy_not_nullish.
  - cbn [forallb] in Hall. apply andb_true_iff in Hall as [Hf _].
    unfold measurable in Hf. apply andb_true_iff in Hf as [Hf _].
    apply andb_true_iff in Hf as [Hf _]. apply negb_true_iff in Hf.
    unfold get. rewrite Hf. cbn [rbind].
    eexists. split; [reflexivity|]. split; [|discriminate].
    unfold or_else. destruct (truthy (member first "url")) eqn:E';
      [now apply truthy_not_nullish | reflexivity].
Qed.

Lemma pickGenre_total (classifications : value) :
  classifications_ok classifications = true ->
  exists genre,
    pickGenre classifications = Ok genre /\
    (is_array classifications = false -> genre = "").
Proof.
  destruct classifications as [| | | | |items|]; try (now exists "").
  destruct items as [|c rest]; [now exists ""|].
  cbn [classifications_ok pickGenre]. intros H.
  repeat (apply andb_true_iff in H as [H ?]).
  match goal with
  | |- context [join " | " (filter truthy ?l)] =>
      destruct (join_primitives " | " (filter truthy l)) as [g ->]
  end.
  { apply forallb_filter. cbn [forallb].
    repeat (apply andb_true_iff; split); auto. }
  exists g. split; [reflexivity | discriminate].
Qed.

Lemma ticketStatusColor_total (code : value) :
  status_ok code = true ->
  exists color,
    ticketStatusColor code = Ok color /\
    (truthy code = false -> color = "gray").
Proof.
  unfold status_ok, ticketStatusColor, or_else. intros H.
  destruct (truthy code) eqn:E.
  - cbn [negb orb] in H. destruct code; try discriminate.
    cbn [toLowerCase rbind].
    repeat match goal with
           | |- context [if ?b then _ else _] => destruct b
           end; (eexists; split; [reflexivity | discriminate]).
  - exists "gray". split; reflexivity.
Qed.

Lemma formatPriceRange_total (ranges : value) :
  prices_ok ranges = true ->
  exists text,
    formatPriceRange ranges = Ok text /\
    (is_array ranges = false -> text = "").
Proof.
  destruct ranges as [| | | | |items|]; try (now exists "").
  destruct items as [|r rest]; [now exists ""|].
  cbn [prices_ok formatPriceRange]. intros H.
  apply andb_true_iff in H as [Hmin Hmax]. unfold price_bound.
  destruct (ToNumber_primitive _ Hmin) as [nmin ->].
  destruct (ToNumber_primitive _ Hmax) as [nmax ->].
  destruct (nullish (get_opt r "min")), (nullish (get_opt r "max"));
    cbn [rbind];
    repeat match goal with
           | |- context [if ?b then _ else _] => destruct b
           end; (eexists; split; [reflexivity | discriminate]).
Qed.

(** The artists: one record per attraction, the empty list without
    attractions. *)
Lemma artists_total (attractions : value) :
  attractions_ok attractions = true ->
  exists artists,
    array_map
      (fun a => n <- get a "name" ;; u <- get a "url" ;;
                Ok (VObj [("name", n); ("url", u)]))
      (or_else attractions (VArr [])) = Ok artists /\
    (truthy attractions = false -> artists = []).
Proof.
  unfold attractions_ok, or_else.
  destruct attractions as [| | | | |items|];
    try (intros H; apply negb_true_iff in H; rewrite H;
         exists []; split; reflexivity).
  cbn [truthy array_map]. intros H.
  assert (exists artists,
            mapM (fun a => n <- get a "name" ;; u <- get a "url" ;;
                           Ok (VObj [("name", n); ("url", u)])) items
            = Ok artists) as [artists ->].
  { induction items as [|a items IH]; [now exists []|].
    cbn [forallb] in H. apply andb_true_iff in H as [Ha H].
    destruct (IH H) as [artists Hr]. cbn [mapM]. rewrite Hr.
    apply negb_true_iff in Ha. unfold get. rewrite Ha. cbn [rbind].
    now eexists. }
  exists artists. split; [reflexivity | discriminate].
Qed.

Lemma mapM_map {A B} (f : A -> result B) (g : A -> B) (l : list A) :
  (forall x, In x l -> f x = Ok (g x)) -> mapM f l = Ok (map g l).
Proof.
  induction l as [|x l IH]; intros H; [reflexivity|].
  cbn [mapM map]. rewrite (H x (or_introl eq_refl)). cbn [rbind].
  rewrite IH; [reflexivity|]. intros y Hy. apply H. now right.
Qed.

(** Every attraction that is there gives its artist record. *)
Lemma artists_of_attractions (attractions : list value) :
  forallb (fun a => negb (nullish a)) attractions = true ->
  mapM (fun a => n <- get a "name" ;; u <- get a "url" ;;
                 Ok (VObj [("name", n); ("url", u)])) attractions
  = Ok (map artist_of attractions).
Proof.
  intros H. apply mapM_map. intros a Ha.
  rewrite forallb_forall in H. specialize (H a Ha).
  apply negb_true_iff in H. unfold get. now rewrite H.
Qed.

Lemma coalesce_defined (v d : value) :
  nullish d = false -> nullish (coalesce v d) = false.
Proof. unfold coalesce. now destruct (nullish v) eqn:E. Qed.

Lemma coalesce_absent (v d : value) : nullish v = true -> coalesce v d = d.
Proof. unfold coalesce. now intros ->. Qed.

Lemma fullAddress_absent (venue : value) :
  truthy venue = false -> fullAddress venue = Ok "".
Proof. unfold fullAddress. now intros ->. Qed.

Ltac read_fields := cbn [member assoc String.eqb Ascii.eqb Bool.eqb].

Ltac defined :=
  repeat constructor; read_fields;
  first [ reflexivity | now apply coalesce_defined | assumption ].

(** C2, as amended.  For an event payload that is an object, any of
    whose fields may be absent (and whose present fields have the shape
    the code reads), [normEventRow] and the detail record are produced
    without a runtime failure.  The row has the six fields [id], [name],
    [dateLocal], [imageUrl], [genre], [venue]; the detail record has
    thirteen fields, and [imageUrl] is not one of them.  [id] is the
    upstream [id] as it is, [undefined] when the payload has none.
    Every other field of each record is neither [null] nor [undefined],
    and reads as its default when its source is absent: the empty string
    ([gray] for [ticketStatusColor], the empty list for [artists]).
    [artists] holds the first five attractions, each as its [name] and
    [url] copied without a default. *)
Theorem normalizer_defaults (e : value) :
  (row_ok e = true ->
   exists row,
     normEventRow e = Ok row /\
     member row "id" = member e "id" /\
     all_defined row ["name"; "dateLocal"; "imageUrl"; "genre"; "venue"] /\
     defaults_to_empty (member e "name") (member row "name") /\
     defaults_to_empty (path e ["dates"; "start"; "localDate"])
       (member row "dateLocal") /\
     (is_array (get_opt e "images") = false ->
      member row "imageUrl" = VStr "") /\
     (is_array (get_opt e "classifications") = false ->
      member row "genre" = VStr "") /\
     defaults_to_empty (path e ["_embedded"; "venues"; "0"; "name"])
       (member row "venue") /\
     field_names row
     = ["id"; "name"; "dateLocal"; "imageUrl"; "genre"; "venue"]) /\
  (detail_ok e = true ->
   exists details artists,
     normalizeEventDetail e = Ok details /\
     member details "id" = member e "id" /\
     member details "artists" = VArr artists /\
     (length artists <= 5)%nat /\
     (truthy (path e ["_embedded"; "attractions"]) = false -> artists = []) /\
     all_defined details
       [ "name"; "dateLocal"; "timeLocal"; "artists"; "venue"; "address";
         "ticketStatus"; "ticketStatusColor"; "buyTicketAt"; "seatmap";
         "priceRange"; "genre" ] /\
     defaults_to_empty (member e "name") (member details "name") /\
     defaults_to_empty (path e ["dates"; "start"; "localDate"])
       (member details "dateLocal") /\
     defaults_to_empty (path e ["dates"; "start"; "localTime"])
       (member details "timeLocal") /\
     defaults_to_empty (path e ["_embedded"; "venues"; "0"; "name"])
       (member details "venue") /\
     (truthy (path e ["_embedded"; "venues"; "0"]) = false ->
      member details "address" = VStr "") /\
     defaults_to_empty (path e ["dates"; "status"; "code"])
       (member details "ticketStatus") /\
     (truthy (path e ["dates"; "status"; "code"]) = false ->
      member details "ticketStatusColor" = VStr "gray") /\
     defaults_to_empty (get_opt e "url") (member details "buyTicketAt") /\
     defaults_to_empty (path e ["seatmap"; "staticUrl"])
       (member details "seatmap") /\
     (is_array (get_opt e "priceRanges") = false ->
      member details "priceRange" = VStr "") /\
     (is_array (get_opt e "classifications") = false ->
      member details "genre" = VStr "") /\
     field_names details
     = [ "id"; "name"; "dateLocal"; "timeLocal"; "artists"; "venue";
         "address"; "ticketStatus"; "ticketStatusColor"; "buyTicketAt";
         "seatmap"; "priceRange"; "genre" ] /\
     member details "imageUrl" = VUndefined /\
     (forall attractions,
        path e ["_embedded"; "attractions"] = VArr attractions ->
        artists = map artist_of (firstn 5 attractions))).
Proof.
  unfold defaults_to_empty, all_defined. split.
  - unfold row_ok. intros H.
    apply andb_true_iff in H as [H Hc]. apply andb_true_iff in H as [He Hi].
    apply negb_true_iff in He.
    destruct (pickImage_total _ Hi) as [url [Hurl [Hdef Habs]]].
    destruct (pickGenre_total _ Hc) as [genre [Hgenre Hnone]].
    unfold normEventRow, get. rewrite He. cbn [rbind].
    rewrite Hurl. cbn [rbind]. rewrite Hgenre. cbn [rbind].
    eexists. split; [reflexivity|]. read_fields.
    split; [reflexivity|]. split; [defined|].
    repeat split; try (intros H; now rewrite (coalesce_absent _ _ H)).
    + intros H. now rewrite (Habs H).
    + intros H. now rewrite (Hnone H).
  - unfold detail_ok. intros H.
    repeat (apply andb_true_iff in H as [H ?]).
    apply negb_true_iff in H.
    match goal with Ha : attractions_ok _ = true |- _ =>
      pose proof Ha as Hattr;
      destruct (artists_total _ Ha) as [artists [Hart Hnoart]] end.
    match goal with Ha : address_ok _ = true |- _ =>
      destruct (fullAddress_total _ Ha) as [address Haddr] end.
    match goal with Ha : status_ok _ = true |- _ =>
      destruct (ticketStatusColor_total _ Ha) as [color [Hcolor Hgray]] end.
    match goal with Ha : prices_ok _ = true |- _ =>
      destruct (formatPriceRange_total _ Ha) as [price [Hprice Hnoprice]] end.
    match goal with Ha : classifications_ok _ = true |- _ =>
      destruct (pickGenre_total _ Ha) as [genre [Hgenre Hnone]] end.
    assert (Hcopied : forall attractions,
              path e ["_embedded"; "attractions"] = VArr attractions ->
              firstn 5 artists = map artist_of (firstn 5 attractions)).
    { intros l Hl. rewrite Hl in Hart, Hattr. cbn [attractions_ok] in Hattr.
      unfold or_else in Hart. cbn [truthy array_map] in Hart.
      rewrite (artists_of_attractions l Hattr) in Hart.
      injection Hart as <-. apply firstn_map. }
    unfold normalizeEventDetail. unfold get at 1 2. rewrite H. cbn [rbind].
    rewrite Hart. cbn [rbind]. rewrite Haddr. cbn [rbind].
    rewrite Hcolor. cbn [rbind]. rewrite Hprice. cbn [rbind].
    rewrite Hgenre. cbn [rbind].
    eexists _, (firstn 5 artists). split; [reflexivity|]. read_fields.
    split; [reflexivity|]. split; [reflexivity|].
    split; [apply firstn_le_length|].
    split; [intros Hf; now rewrite (Hnoart Hf)|].
    split; [defined|].
    repeat split; try (intros Hf; now rewrite (coalesce_absent _ _ Hf)).
    + intros Hf. rewrite (fullAddress_absent _ Hf) in Haddr. congruence.
    + intros Hf. now rewrite (Hgray Hf).
    + intros Hf. now rewrite (Hnoprice Hf).
    + intros Hf. now rewrite (Hnone Hf).
    + exact Hcopied.
Qed.

End Events.

(* ================================================================== *)
(** * Further properties of the routes *)
(* ================================================================== *)

Section RouteRuns.

Context {P : Platform}.
Variable net : string -> fetch_result.

(** What the search route does once validation has passed. *)
Lemma search_route_valid (query : value) :
  truthy (default_to (member query "keyword") (VStr "")) = true ->
  truthy (member query "lat") = true ->
  truthy (member query "lng") = true ->
  handle (search_route net query) =
  match buildSearchQuery
          (default_to (member query "keyword") (VStr ""))
          (default_to (member query "distance") (VStr "10"))
          (default_to (member query "category") (VStr "Default"))
          (member query "lat") (member query "lng") with
  | Throw e => (Next e, [])
  | Ok params =>
      match net (search_url params) with
      | NetworkFailure => (Next FetchFailed, [search_url params])
      | Response status body =>
          if ok status then
            match body with
            | None => (Next SyntaxError, [search_url params])
            | Some j =>
                match normalizeSearchResults j with
                | Ok events => (Replied 200 (VArr events), [search_url params])
                | Throw e => (Next e, [search_url params])
                end
            end
          else (Next (UpstreamError "TM search failed" status),
                [search_url params])
      end
  end.
Proof.
  intros Hk Hlat Hlng. unfold handle, search_route.
  rewrite Hk, Hlat, Hlng. cbn [negb orb]. unfold bind, lift.
  destruct (buildSearchQuery _ _ _ _ _) as [params|e]; [|reflexivity].
  unfold fetch. fold (search_url params).
  destruct (net (search_url params)) as [|status body]; [reflexivity|].
  cbn [fst snd app]. destruct (ok status); cbn [negb]; [|reflexivity].
  unfold json. cbn [snd]. destruct body as [j|]; [|reflexivity].
  unfold ret. destruct (normalizeSearchResults j); reflexivity.
Qed.

(** What the venue route does once validation has passed. *)
Lemma venue_route_valid (query : value) :
  truthy (member query "name") = true ->
  handle (venue_route net query) =
  match ToString (member query "name") with
  | Throw e => (Next e, [])
  | Ok name =>
      match net (venue_url name) with
      | NetworkFailure => (Next FetchFailed, [venue_url name])
      | Response status body =>
          if ok status then
            match body with
            | None => (Next SyntaxError, [venue_url name])
            | Some j =>
                match normalizeVenue j with
                | Ok out => (Replied 200 out, [venue_url name])
                | Throw e => (Next e, [venue_url name])
                end
            end
          else (Next (UpstreamError "TM venue failed" status),
                [venue_url name])
      end
  end.
Proof.
  intros Hn. unfold handle, venue_route. rewrite Hn. cbn [negb].
  unfold bind, lift.
  destruct (ToString (member query "name")) as [name|e]; [|reflexivity].
  unfold fetch. fold (venue_url name).
  destruct (net (venue_url name)) as [|status body]; [reflexivity|].
  cbn [fst snd app]. destruct (ok status); cbn [negb]; [|reflexivity].
  unfold json. cbn [snd]. destruct body as [j|]; [|reflexivity].
  unfold ret. destruct (normalizeVenue j); reflexivity.
Qed.

(** What the suggest route does, by the kind of its keyword. *)
Lemma suggest_route_cases (query : value) :
  handle (suggest_route net query) =
  match default_to (member query "keyword") (VStr "") with
  | VStr s =>
      if JsString.blank s then (Replied 200 (VArr []), [])
      else
        match net (suggest_url s) with
        | NetworkFailure => (Next FetchFailed, [suggest_url s])
        | Response status body =>
            if ok status then
              match body with
              | None => (Next SyntaxError, [suggest_url s])
              | Some j =>
                  match normalizeSuggestions j with
                  | Ok unique => (Replied 200 (VArr unique), [suggest_url s])
                  | Throw e => (Next e, [suggest_url s])
                  end
              end
            else (Next (UpstreamError "TM suggest failed" status),
                  [suggest_url s])
        end
  | _ => (Next TypeError, [])
  end.
Proof.
  destruct (default_to (member query "keyword") (VStr "")) as [| | | |s| |] eqn:Hk;
    try (unfold handle, suggest_route; rewrite Hk; reflexivity).
  destruct (JsString.blank s) eqn:Hb.
  - unfold handle, suggest_route. rewrite Hk.
    unfold bind, lift, trim. now rewrite TrimFacts.trim_empty, Hb.
  - apply (suggest_fetches net query s Hk Hb).
Qed.

Lemma search_validation_exact_aux (query : value) :
  (truthy (default_to (member query "keyword") (VStr "")) = false ->
   handle (search_route net query)
   = (Replied 400 (error_body "keyword is required"), [])) /\
  (truthy (default_to (member query "keyword") (VStr "")) = true ->
   truthy (member query "lat") && truthy (member query "lng") = false ->
   handle (search_route net query)
   = (Replied 400 (error_body "lat and lng are required"), [])).
Proof.
  split.
  - intros H. unfold handle, search_route. now rewrite H.
  - intros Hk H. unfold handle, search_route. rewrite Hk. cbn [negb].
    rewrite <- negb_andb, H. reflexivity.
Qed.

(** X1.  The search route answers 400 exactly when the keyword, [lat]
    or [lng] is missing or falsy (the empty string included); the
    keyword is tested first, so that a request without keyword gets the
    message about the keyword whatever its coordinates are; nothing is
    fetched on a 400; and a request with all three never gets a 400. *)
Theorem search_validation_exact (query : value) :
  (truthy (default_to (member query "keyword") (VStr "")) = false ->
   handle (search_route net query)
   = (Replied 400 (error_body "keyword is required"), [])) /\
  (truthy (default_to (member query "keyword") (VStr "")) = true ->
   truthy (member query "lat") && truthy (member query "lng") = false ->
   handle (search_route net query)
   = (Replied 400 (error_body "lat and lng are required"), [])) /\
  (truthy (default_to (member query "keyword") (VStr "")) = true ->
   truthy (member query "lat") && truthy (member query "lng") = true ->
   forall body, fst (handle (search_route net query)) <> Replied 400 body).
Proof.
  destruct (search_validation_exact_aux query) as [H1 H2].
  split; [exact H1 | split; [exact H2|]].
  intros Hk H body. apply andb_true_iff in H as [Hlat Hlng].
  rewrite (search_route_valid query Hk Hlat Hlng).
  destruct (buildSearchQuery _ _ _ _ _) as [params|e]; [|discriminate].
  destruct (net (search_url params)) as [|status b]; [discriminate|].
  destruct (ok status); [|discriminate].
  destruct b as [j|]; [|discriminate].
  destruct (normalizeSearchResults j); discriminate.
Qed.

(** X2.  The venue route answers 400 "name is required", without
    fetching, exactly when [name] is missing or falsy (the empty string
    included); with a name it never answers 400. *)
Theorem venue_validation_exact (query : value) :
  (truthy (member query "name") = false ->
   handle (venue_route net query)
   = (Replied 400 (error_body "name is required"), [])) /\
  (truthy (member query "name") = true ->
   forall body, fst (handle (venue_route net query)) <> Replied 400 body).
Proof.
  split.
  - intros H. unfold handle, venue_route. now rewrite H.
  - intros H body. rewrite (venue_route_valid query H).
    destruct (ToString (member query "name")) as [name|e]; [|discriminate].
    destruct (net (venue_url name)) as [|status b]; [discriminate|].
    destruct (ok status); [|discriminate].
    destruct b as [j|]; [|discriminate].
    destruct (normalizeVenue j); discriminate.
Qed.

(** X3.  Whatever the request and whatever the upstream does, a route
    fetches at most one URL; the event route, which validates nothing,
    always fetches exactly the event URL. *)
Theorem routes_fetch_at_most_once :
  (forall query, (length (snd (handle (search_route net query))) <= 1)%nat) /\
  (forall query, (length (snd (handle (venue_route net query))) <= 1)%nat) /\
  (forall query, (length (snd (handle (suggest_route net query))) <= 1)%nat) /\
  (forall id, snd (handle (event_route net id)) = [event_url id]).
Proof.
  repeat split.
  - intros query.
    destruct (truthy (default_to (member query "keyword") (VStr ""))) eqn:Hk.
    + destruct (truthy (member query "lat") && truthy (member query "lng"))
        eqn:Hc.
      * apply andb_true_iff in Hc as [Hlat Hlng].
        rewrite (search_route_valid query Hk Hlat Hlng).
        destruct (buildSearchQuery _ _ _ _ _) as [params|e]; [|cbn; lia].
        destruct (net (search_url params)) as [|status b]; [cbn; lia|].
        destruct (ok status); [|cbn; lia].
        destruct b as [j|]; [|cbn; lia].
        destruct (normalizeSearchResults j); cbn; lia.
      * destruct (search_validation_exact_aux query) as [_ H].
        rewrite (H Hk Hc). cbn. lia.
    + destruct (search_validation_exact_aux query) as [H _].
      rewrite (H Hk). cbn. lia.
  - intros query. destruct (truthy (member query "name")) eqn:Hn.
    + rewrite (venue_route_valid query Hn).
      destruct (ToString (member query "name")) as [name|e]; [|cbn; lia].
      destruct (net (venue_url name)) as [|status b]; [cbn; lia|].
      destruct (ok status); [|cbn; lia].
      destruct b as [j|]; [|cbn; lia].
      destruct (normalizeVenue j); cbn; lia.
    + unfold handle, venue_route. rewrite Hn. cbn. lia.
  - intros query. rewrite suggest_route_cases.
    destruct (default_to (member query "keyword") (VStr "")); try (cbn; lia).
    destruct (JsString.blank s); [cbn; lia|].
    destruct (net (suggest_url s)) as [|status b]; [cbn; lia|].
    destruct (ok status); [|cbn; lia].
    destruct b as [j|]; [|cbn; lia].
    destruct (normalizeSuggestions j); cbn; lia.
  - intros id. rewrite event_route_run.
    destruct (net (event_url id)) as [|status b]; [reflexivity|].
    destruct (ok status); [|reflexivity].
    destruct b as [j|]; [|reflexivity].
    destruct (normalizeEventDetail j); reflexivity.
Qed.

(** X4.  A route reports success only on an upstream success: a 200
    from the search or the venue route comes after exactly one fetch that
    the upstream answered with a status in 200-299 and a JSON body, and
    its body is that payload normalized; the same holds for the suggest
    route, whose only other 200 is the empty list for a blank keyword,
    sent without a fetch. *)
Theorem success_needs_upstream :
  (forall query body log,
     handle (search_route net query) = (Replied 200 body, log) ->
     exists params status j rows,
       log = [search_url params] /\
       net (search_url params) = Response status (Some j) /\
       ok status = true /\
       normalizeSearchResults j = Ok rows /\ body = VArr rows) /\
  (forall query body log,
     handle (venue_route net query) = (Replied 200 body, log) ->
     exists name status j,
       log = [venue_url name] /\
       net (venue_url name) = Response status (Some j) /\
       ok status = true /\
       normalizeVenue j = Ok body) /\
  (forall query body log,
     handle (suggest_route net query) = (Replied 200 body, log) ->
     (log = [] /\ body = VArr []) \/
     exists keyword status j unique,
       log = [suggest_url keyword] /\
       net (suggest_url keyword) = Response status (Some j) /\
       ok status = true /\
       normalizeSuggestions j = Ok unique /\ body = VArr unique).
Proof.
  repeat split.
  - intros query body log.
    destruct (truthy (default_to (member query "keyword") (VStr ""))) eqn:Hk.
    + destruct (truthy (member query "lat") && truthy (member query "lng"))
        eqn:Hc.
      * apply andb_true_iff in Hc as [Hlat Hlng].
        rewrite (search_route_valid query Hk Hlat Hlng).
        destruct (buildSearchQuery _ _ _ _ _) as [params|e]; [|discriminate].
        destruct (net (search_url params)) as [|status b] eqn:Hnet;
          [discriminate|].
        destruct (ok status) eqn:Hok; [|discriminate].
        destruct b as [j|]; [|discriminate].
        destruct (normalizeSearchResults j) as [rows|e] eqn:Hrows;
          [|discriminate].
        intros [= <- <-]. now exists params, status, j, rows.
      * destruct (search_validation_exact_aux query) as [_ H].
        rewrite (H Hk Hc). discriminate.
    + destruct (search_validation_exact_aux query) as [H _].
      rewrite (H Hk). discriminate.
  - intros query body log. destruct (truthy (member query "name")) eqn:Hn.
    + rewrite (venue_route_valid query Hn).
      destruct (ToString (member query "name")) as [name|e]; [|discriminate].
      destruct (net (venue_url name)) as [|status b] eqn:Hnet; [discriminate|].
      destruct (ok status) eqn:Hok; [|discriminate].
      destruct b as [j|]; [|discriminate].
      destruct (normalizeVenue j) as [out|e] eqn:Hout; [|discriminate].
      intros [= <- <-]. now exists name, status, j.
    + unfold handle, venue_route. rewrite Hn. discriminate.
  - intros query body log. rewrite suggest_route_cases.
    destruct (default_to (member query "keyword") (VStr ""));
      try discriminate.
    destruct (JsString.blank s).
    + intros [= <- <-]. now left.
    + destruct (net (suggest_url s)) as [|status b] eqn:Hnet; [discriminate|].
      destruct (ok status) eqn:Hok; [|discriminate].
      destruct b as [j|]; [|discriminate].
      destruct (normalizeSuggestions j) as [unique|e] eqn:Hu; [|discriminate].
      intros [= <- <-]. right. now exists s, status, j, unique.
Qed.

(** X5.  What reaches the client.  From the search, venue and suggest
    routes it is a 200, a 400 with an error message, or the 500 of the
    error handler, whose body is always [{error: 'Server error'}]: the
    status the upstream answered and the message of the exception are
    never sent.  From the event route it is a 200, that same 500, or the
    failing status of the upstream with [{error: 'event not found'}]. *)
Theorem client_replies :
  (forall query,
     let r := respond (fst (handle (search_route net query))) in
     (exists body, r = Sent 200 body) \/
     (exists message, r = Sent 400 (error_body message)) \/
     r = Sent 500 (error_body "Server error")) /\
  (forall query,
     let r := respond (fst (handle (venue_route net query))) in
     (exists body, r = Sent 200 body) \/
     (exists message, r = Sent 400 (error_body message)) \/
     r = Sent 500 (error_body "Server error")) /\
  (forall query,
     let r := respond (fst (handle (suggest_route net query))) in
     (exists body, r = Sent 200 body) \/
     r = Sent 500 (error_body "Server error")) /\
  (forall id,
     let r := respond (fst (handle (event_route net id))) in
     (exists body, r = Sent 200 body) \/
     r = Sent 500 (error_body "Server error") \/
     (exists status,
        ok status = false /\
        r = Sent status (error_body "event not found"))).
Proof.
  repeat split; cbv zeta.
  - intros query.
    destruct (truthy (default_to (member query "keyword") (VStr ""))) eqn:Hk.
    + destruct (truthy (member query "lat") && truthy (member query "lng"))
        eqn:Hc.
      * apply andb_true_iff in Hc as [Hlat Hlng].
        rewrite (search_route_valid query Hk Hlat Hlng).
        destruct (buildSearchQuery _ _ _ _ _) as [params|e]; [|now right; right].
        destruct (net (search_url params)) as [|status b]; [now right; right|].
        destruct (ok status); [|now right; right].
        destruct b as [j|]; [|now right; right].
        destruct (normalizeSearchResults j); [left; now eexists | now right; right].
      * destruct (search_validation_exact_aux query) as [_ H].
        rewrite (H Hk Hc). right. left. now eexists.
    + destruct (search_validation_exact_aux query) as [H _].
      rewrite (H Hk). right. left. now eexists.
  - intros query. destruct (truthy (member query "name")) eqn:Hn.
    + rewrite (venue_route_valid query Hn).
      destruct (ToString (member query "name")) as [name|e]; [|now right; right].
      destruct (net (venue_url name)) as [|status b]; [now right; right|].
      destruct (ok status); [|now right; right].
      destruct b as [j|]; [|now right; right].
      destruct (normalizeVenue j); [left; now eexists | now right; right].
    + unfold handle, venue_route. rewrite Hn. right. left. now eexists.
  - intros query. rewrite suggest_route_cases.
    destruct (default_to (member query "keyword") (VStr ""));
      try (now right).
    destruct (JsString.blank s); [left; now eexists|].
    destruct (net (suggest_url s)) as [|status b]; [now right|].
    destruct (ok status); [|now right].
    destruct b as [j|]; [|now right].
    destruct (normalizeSuggestions j); [left; now eexists | now right].
  - intros id. rewrite event_route_run.
    destruct (net (event_url id)) as [|status b]; [now right; left|].
    destruct (ok status) eqn:Hok.
    + destruct b as [j|]; [|now right; left].
      destruct (normalizeEventDetail j); [left; now eexists | now right; left].
    + right. right. now exists status.
Qed.

(** X18.  A keyword that is there and is not a string (a repeated
    [keyword] parameter is parsed to an array) has no [trim]: the suggest
    route throws a [TypeError] before it fetches anything, and the
    client receives the 500 of the error handler. *)
Theorem suggest_keyword_not_string (query : value) :
  member query "keyword" <> VUndefined ->
  is_string (member query "keyword") = false ->
  handle (suggest_route net query) = (Next TypeError, []) /\
  respond (fst (handle (suggest_route net query)))
  = Sent 500 (error_body "Server error").
Proof.
  intros Hdef Hs. rewrite suggest_route_cases.
  destruct (member query "keyword"); try discriminate Hs;
    try congruence; now split.
Qed.

End RouteRuns.

(* ================================================================== *)
(** * Further properties of the normalizers *)
(* ================================================================== *)

Section Normalizers.

Context {P : Platform}.

(** One element on which the callback throws makes the whole [map]
    throw. *)
Lemma mapM_throws {A B} (f : A -> result B) (l : list A) (x : A) :
  In x l -> (exists e, f x = Throw e) -> exists e, mapM f l = Throw e.
Proof.
  induction l as [|y l IH]; intros Hin Hx; [destruct Hin|].
  cbn [mapM]. destruct (f y) as [b|e] eqn:Hy; [|now exists e].
  cbn [rbind]. destruct Hin as [->|Hin].
  - destruct Hx as [e He]. congruence.
  - destruct (IH Hin Hx) as [e ->]. now exists e.
Qed.

Lemma existsb_nullish (l : list value) :
  existsb nullish l = true -> exists x, In x l /\ nullish x = true.
Proof. intros H. now apply existsb_exists in H. Qed.

Lemma normEventRow_ok (e : value) :
  row_ok e = true ->
  exists row,
    normEventRow e = Ok row /\
    member row "id" = member e "id" /\
    member row "name" = coalesce (member e "name") (VStr "").
Proof.
  unfold row_ok. intros H.
  apply andb_true_iff in H as [H Hc]. apply andb_true_iff in H as [He Hi].
  apply negb_true_iff in He.
  destruct (pickImage_total _ Hi) as [url [Hurl _]].
  destruct (pickGenre_total _ Hc) as [genre [Hgenre _]].
  unfold normEventRow, get. rewrite He. cbn [rbind].
  rewrite Hurl. cbn [rbind]. rewrite Hgenre. cbn [rbind].
  eexists. split; [reflexivity|]. split; reflexivity.
Qed.

(** X6.  The search normalizer maps the events one to one and in
    order: for an array of events (each an object whose present fields
    have the shape the code reads) there are as many rows as events, and
    the i-th row has the [id] of the i-th event, and its [name] or the
    empty string.  One [null] among the events makes the whole
    normalization throw: no partial list is returned. *)
Theorem normalizeSearchResults_rows (j : value) (events : list value) :
  path j ["_embedded"; "events"] = VArr events ->
  (forallb row_ok events = true ->
   exists rows,
     normalizeSearchResults j = Ok rows /\
     length rows = length events /\
     map (fun r => member r "id") rows
     = map (fun e => member e "id") events /\
     map (fun r => member r "name") rows
     = map (fun e => coalesce (member e "name") (VStr "")) events) /\
  (existsb nullish events = true ->
   exists err, normalizeSearchResults j = Throw err).
Proof.
  intros Hj. unfold normalizeSearchResults, or_else. rewrite Hj.
  cbn [truthy array_map]. split.
  - intros Hall. induction events as [|e events IH] in Hall |- *.
    + exists []. repeat split.
    + cbn [forallb] in Hall. apply andb_true_iff in Hall as [He Hall].
      destruct (normEventRow_ok e He) as [row [Hrow [Hid Hname]]].
      destruct (IH Hall) as [rows [Hrows [Hlen [Hids Hnames]]]].
      exists (row :: rows). cbn [mapM]. rewrite Hrow, Hrows.
      cbn [rbind length map]. now rewrite Hlen, Hid, Hids, Hname, Hnames.
  - intros Hnull. destruct (existsb_nullish _ Hnull) as [x [Hin Hx]].
    apply (mapM_throws normEventRow events x Hin).
    exists TypeError. unfold normEventRow, get. now rewrite Hx.
Qed.

Lemma artists_throw (attractions : list value) :
  existsb nullish attractions = true ->
  mapM (fun a => n <- get a "name" ;; u <- get a "url" ;;
                 Ok (VObj [("name", n); ("url", u)])) attractions
  = Throw TypeError.
Proof.
  induction attractions as [|a l IH]; [discriminate|].
  cbn [existsb mapM]. unfold get at 1 2.
  destruct (nullish a); [reflexivity|]. cbn [orb rbind].
  intros H. now rewrite (IH H).
Qed.

(** X7.  The artists of the detail record are the first five
    attractions, in upstream order, each reduced to its [name] and [url]
    as they are.  The attractions are mapped before they are cut to
    five: a [null] anywhere among them, beyond the fifth too, makes the
    record fail with a [TypeError]. *)
Theorem detail_artists (e : value) (attractions : list value) :
  path e ["_embedded"; "attractions"] = VArr attractions ->
  (detail_ok e = true ->
   exists details,
     normalizeEventDetail e = Ok details /\
     member details "artists"
     = VArr (map artist_of (firstn 5 attractions))) /\
  (nullish e = false -> existsb nullish attractions = true ->
   normalizeEventDetail e = Throw TypeError).
Proof.
  intros Ha. split.
  - unfold detail_ok. rewrite Ha. intros H.
    repeat (apply andb_true_iff in H as [H ?]).
    apply negb_true_iff in H.
    match goal with Hx : address_ok _ = true |- _ =>
      destruct (fullAddress_total _ Hx) as [address Haddr] end.
    match goal with Hx : status_ok _ = true |- _ =>
      destruct (ticketStatusColor_total _ Hx) as [color [Hcolor _]] end.
    match goal with Hx : prices_ok _ = true |- _ =>
      destruct (formatPriceRange_total _ Hx) as [price [Hprice _]] end.
    match goal with Hx : classifications_ok _ = true |- _ =>
      destruct (pickGenre_total _ Hx) as [genre [Hgenre _]] end.
    unfold normalizeEventDetail. unfold get at 1 2. rewrite H. cbn [rbind].
    rewrite Ha. unfold or_else. cbn [truthy array_map].
    rewrite artists_of_attractions by assumption. cbn [rbind].
    rewrite Haddr. cbn [rbind]. rewrite Hcolor. cbn [rbind].
    rewrite Hprice. cbn [rbind]. rewrite Hgenre. cbn [rbind].
    eexists. split; [reflexivity|].
    cbn [member assoc String.eqb Ascii.eqb Bool.eqb].
    now rewrite firstn_map.
  - intros He Hnull. unfold normalizeEventDetail. unfold get at 1 2.
    rewrite He. cbn [rbind]. rewrite Ha. unfold or_else.
    cbn [truthy array_map]. now rewrite (artists_throw _ Hnull).
Qed.

(** X8.  [ticketStatusColor] answers one of five colours and nothing
    else, for every code that is a string or is falsy; a code that is
    truthy and not a string (a number, an object) has no [toLowerCase]
    and makes it throw a [TypeError]. *)
Theorem ticketStatusColor_range (code : value) :
  (truthy code = false \/ is_string code = true ->
   exists colour,
     ticketStatusColor code = Ok colour /\ In colour colours) /\
  (truthy code = true -> is_string code = false ->
   ticketStatusColor code = Throw TypeError).
Proof.
  unfold ticketStatusColor, or_else, colours. split.
  - intros H.
    assert (exists s, (if truthy code then code else VStr "") = VStr s)
      as [s ->].
    { destruct H as [-> | H]; [now exists ""|].
      destruct code; try discriminate. destruct (truthy _); eauto. }
    cbn [toLowerCase rbind].
    repeat match goal with
           | |- context [if ?b then _ else _] => destruct b
           end; eexists; (split; [reflexivity|]); cbn; tauto.
  - intros -> Hs. now destruct code.
Qed.

Lemma sort_insert_In (comparefn : value -> value -> result num)
  (x : value) (sorted out : list value) :
  sort_insert comparefn x sorted = Ok out ->
  forall z, In z out -> z = x \/ In z sorted.
Proof.
  revert out. induction sorted as [|y rest IH]; intros out; cbn [sort_insert].
  - intros [= <-] z [<-|[]]. now left.
  - destruct (SortCompare comparefn x y) as [c|e]; [|discriminate].
    cbn [rbind]. destruct (num_pos c).
    + destruct (sort_insert comparefn x rest) as [rest'|e] eqn:E;
        [|discriminate].
      intros [= <-] z [<-|Hz]; [right; now left|].
      destruct (IH rest' eq_refl z Hz) as [->|H]; [now left | right; now right].
    + intros [= <-] z [<-|Hz]; [now left | now right].
Qed.

Lemma sort_In (comparefn : value -> value -> result num)
  (items sorted : list value) :
  sort comparefn items = Ok sorted -> forall z, In z sorted -> In z items.
Proof.
  revert sorted. induction items as [|x rest IH]; intros sorted; cbn [sort].
  - now intros [= <-].
  - destruct (sort comparefn rest) as [s|e] eqn:E; [|discriminate].
    cbn [rbind]. intros H z Hz.
    destruct (sort_insert_In _ _ _ _ H z Hz) as [->|Hin]; [now left|].
    right. now apply (IH s eq_refl).
Qed.

(** X9.  [pickImage] never makes up a URL: on an array of entries it
    can measure it returns, and the result is the empty string or the
    truthy [url] of one of the entries of the array. *)
Theorem pickImage_picks_member (items : list value) :
  forallb measurable items = true ->
  exists url,
    pickImage (VArr items) = Ok url /\
    (url = VStr "" \/
     exists a, In a items /\ member a "url" = url /\ truthy url = true).
Proof.
  intros Hall. destruct items as [|first rest]; [exists (VStr ""); now split; [|left]|].
  destruct (sort_total _ Hall) as [sorted [Hs _]].
  cbn [pickImage]. rewrite Hs. cbn [rbind].
  destruct (truthy (get_opt (hd VUndefined sorted) "url")) eqn:E.
  - eexists. split; [reflexivity|]. right.
    destruct sorted as [|h sorted']; [discriminate|]. cbn [hd] in *.
    exists h. split; [apply (sort_In _ _ _ Hs); now left|].
    pose proof (truthy_get_opt _ _ E) as Hh.
    unfold get_opt in *. rewrite Hh in *. now split.
  - cbn [forallb] in Hall. apply andb_true_iff in Hall as [Hf _].
    unfold measurable in Hf. apply andb_true_iff in Hf as [Hf _].
    apply andb_true_iff in Hf as [Hf _]. apply negb_true_iff in Hf.
    unfold get. rewrite Hf. cbn [rbind]. eexists. split; [reflexivity|].
    unfold or_else. destruct (truthy (member first "url")) eqn:E';
      [right | now left].
    exists first. repeat split; [now left | assumption].
Qed.

Lemma squareness_unsized (a : value) :
  unsized a = true -> squareness a = Ok NaN.
Proof.
  unfold unsized, squareness, get. intros H.
  apply andb_true_iff in H as [Hn H]. apply negb_true_iff in Hn.
  rewrite Hn. cbn [rbind].
  destruct (member a "width"); try discriminate.
  destruct (member a "height"); try discriminate. reflexivity.
Qed.

Lemma sort_unsized (items : list value) :
  forallb unsized items = true -> sort bySquareness items = Ok items.
Proof.
  induction items as [|x rest IH]; [reflexivity|].
  cbn [forallb]. intros H. apply andb_true_iff in H as [Hx Hrest].
  cbn [sort]. rewrite (IH Hrest). cbn [rbind].
  destruct rest as [|y rest']; [reflexivity|].
  cbn [forallb] in Hrest. apply andb_true_iff in Hrest as [Hy _].
  cbn [sort_insert]. unfold SortCompare, bySquareness.
  rewrite (squareness_unsized x Hx), (squareness_unsized y Hy).
  unfold unsized in Hx, Hy.
  apply andb_true_iff in Hx as [Hx _]. apply andb_true_iff in Hy as [Hy _].
  destruct x; try discriminate Hx; destruct y; try discriminate Hy;
    reflexivity.
Qed.

(** X10.  When no image carries a size (no [width] and no [height]),
    every comparison is [NaN], which the sort counts as a tie: the order
    of the array is kept and [pickImage] answers the [url] of the first
    image, or the empty string when that is falsy. *)
Theorem pickImage_unsized_first (first : value) (rest : list value) :
  forallb unsized (first :: rest) = true ->
  pickImage (VArr (first :: rest))
  = Ok (or_else (member first "url") (VStr "")).
Proof.
  intros H. cbn [pickImage]. rewrite (sort_unsized _ H). cbn [rbind hd].
  cbn [forallb] in H. apply andb_true_iff in H as [Hf _].
  unfold unsized in Hf. apply andb_true_iff in Hf as [Hf _].
  apply negb_true_iff in Hf. unfold get_opt, get, or_else. rewrite Hf.
  cbn [rbind]. now destruct (truthy (member first "url")).
Qed.

Lemma join_text_parts (sep : string) (l : list value) :
  forallb string_or_absent l = true ->
  join sep (filter truthy l) = Ok (String.concat sep (text_parts l)).
Proof.
  intros H. unfold join.
  assert (mapM (fun v => if nullish v then Ok "" else ToString v)
            (filter truthy l) = Ok (text_parts l)) as ->; [|reflexivity].
  induction l as [|v l IH]; [reflexivity|].
  cbn [forallb] in H. apply andb_true_iff in H as [Hv H].
  unfold text_parts in *. cbn [filter flat_map].
  destruct v as [| | | |s| |]; try discriminate Hv; cbn [truthy];
    try (now apply IH).
  destruct (s =? "")%string; cbn [negb app]; [now apply IH|].
  cbn [mapM nullish ToString rbind]. now rewrite (IH H).
Qed.

(** X11.  [pickGenre] reads the first classification only and joins,
    with " | ", those of its segment, genre and sub-genre names that
    are non-empty strings, in that order: an empty name is skipped like
    an absent one, and no separator is left dangling. *)
Theorem pickGenre_names (c : value) (rest : list value) :
  forallb string_or_absent
    [ path c ["segment"; "name"]; path c ["genre"; "name"];
      path c ["subGenre"; "name"] ] = true ->
  pickGenre (VArr (c :: rest))
  = Ok (String.concat " | "
          (text_parts [ path c ["segment"; "name"];
                        path c ["genre"; "name"];
                        path c ["subGenre"; "name"] ])).
Proof. intros H. cbn [pickGenre]. now apply join_text_parts. Qed.

(** X12.  [fullAddress] of a venue joins, with ", ", those of its name,
    first address line, "city, state" and postal code that are
    non-empty strings; "city, state" is itself the join of the city name
    and the state code that are there, and is skipped when neither is.
    A falsy venue gives the empty string. *)
Theorem fullAddress_parts (venue : value) :
  (truthy venue = false -> fullAddress venue = Ok "") /\
  (truthy venue = true ->
   forallb string_or_absent
     [ get_opt venue "name"; path venue ["address"; "line1"];
       path venue ["city"; "name"]; path venue ["state"; "stateCode"];
       get_opt venue "postalCode" ] = true ->
   fullAddress venue
   = Ok (String.concat ", "
           (text_parts
              [ get_opt venue "name";
                path venue ["address"; "line1"];
                VStr (String.concat ", "
                        (text_parts [ path venue ["city"; "name"];
                                      path venue ["state"; "stateCode"] ]));
                get_opt venue "postalCode" ]))).
Proof.
  split.
  - apply fullAddress_absent.
  - intros Hv H. unfold fullAddress. rewrite Hv. cbn [negb].
    cbn [forallb] in H. repeat (apply andb_true_iff in H as [? H]).
    rewrite join_text_parts
      by (cbn [forallb]; repeat (apply andb_true_iff; split); auto).
    cbn [rbind]. apply join_text_parts. cbn [forallb].
    repeat (apply andb_true_iff; split); auto.
Qed.

(** X13.  [formatPriceRange] looks at the first range only, and a bound
    counts as present when it is neither [null] nor [undefined], so that
    a minimum of 0 is a price: with both bounds the text is
    "$min ~ $max", with the minimum alone "From $min", with the maximum
    alone "Up to $max", with neither the empty string.  (The bounds are
    primitives, and [toFixed] never prints the empty string.) *)
Theorem formatPriceRange_cases (r : value) (rest : list value) :
  (forall n, toFixed2 n <> "") ->
  is_primitive (get_opt r "min") = true ->
  is_primitive (get_opt r "max") = true ->
  exists lo hi,
    ToNumber (get_opt r "min") = Ok lo /\
    ToNumber (get_opt r "max") = Ok hi /\
    formatPriceRange (VArr (r :: rest))
    = Ok (match nullish (get_opt r "min"), nullish (get_opt r "max") with
          | false, false => "$" ++ toFixed2 lo ++ " ~ $" ++ toFixed2 hi
          | false, true => "From $" ++ toFixed2 lo
          | true, false => "Up to $" ++ toFixed2 hi
          | true, true => ""
          end)%string.
Proof.
  intros Hfix Hmin Hmax.
  destruct (ToNumber_primitive _ Hmin) as [lo Hlo].
  destruct (ToNumber_primitive _ Hmax) as [hi Hhi].
  exists lo, hi. split; [assumption|]. split; [assumption|].
  cbn [formatPriceRange]. unfold price_bound. rewrite Hlo, Hhi.
  assert (Hne : forall n, (toFixed2 n =? "")%string = false)
    by (intros n; apply String.eqb_neq, Hfix).
  destruct (nullish (get_opt r "min")), (nullish (get_opt r "max"));
    cbn [rbind nonempty text_of andb negb]; rewrite ?Hne; reflexivity.
Qed.

End Normalizers.

(* ================================================================== *)
(** * Further properties of the venue record and of the suggestions *)
(* ================================================================== *)

Section VenueAndSuggestions.

Context {P : Platform}.

(** X14.  For a venue whose coordinates are non-empty strings, as the
    upstream sends them, [location] holds the two strings converted by
    [Number], and [googleMapsUrl] holds the two strings as they were
    received, latitude first and separated by a comma: the URL is built
    from the upstream text, not from the converted numbers. *)
Theorem venue_coordinates_verbatim (j : value) (latitude longitude : string) :
  let v := path j ["_embedded"; "venues"; "0"] in
  address_ok v = true ->
  path v ["location"; "latitude"] = VStr latitude -> latitude <> "" ->
  path v ["location"; "longitude"] = VStr longitude -> longitude <> "" ->
  exists out,
    normalizeVenue j = Ok out /\
    member out "location"
    = VObj [ ("lat", VNum (string_to_number latitude));
             ("lng", VNum (string_to_number longitude)) ] /\
    member out "googleMapsUrl"
    = VStr ("https://www.google.com/maps/search/?api=1&query="
            ++ latitude ++ "," ++ longitude).
Proof.
  cbv zeta. set (v := path j ["_embedded"; "venues"; "0"]).
  intros Haddr Hlat Hlatne Hlng Hlngne.
  apply String.eqb_neq in Hlatne, Hlngne.
  assert (Tlat : truthy (path v ["location"; "latitude"]) = true)
    by (rewrite Hlat; cbn; now rewrite Hlatne).
  assert (Tlng : truthy (path v ["location"; "longitude"]) = true)
    by (rewrite Hlng; cbn; now rewrite Hlngne).
  destruct (truthy_path2 v "location" "latitude" Tlat) as [G1 G2].
  destruct (truthy_path2 v "location" "longitude" Tlng) as [_ G3].
  assert (Hv : truthy v = true).
  { unfold path in Hlat. cbn [fold_left] in Hlat. unfold get_opt in Hlat.
    destruct v as [| | | | s | items | fields]; try reflexivity;
      cbn in Hlat; discriminate Hlat. }
  destruct (fullAddress_total v Haddr) as [address Ha].
  unfold normalizeVenue. fold v. rewrite Hv. cbn [negb].
  unfold get at 1. rewrite (truthy_not_nullish v Hv). cbn [rbind].
  rewrite Ha. cbn [rbind]. unfold coordinate, googleMapsUrl.
  rewrite Tlat, Tlng, G1. cbn [rbind andb]. rewrite G2, G3. cbn [rbind].
  rewrite Hlat, Hlng. cbn [ToNumber ToString rbind].
  eexists. repeat split.
Qed.

Lemma keep_first_In_string (l : list value) (x : value) :
  Forall (fun v => is_string v = true) l ->
  In x l -> In x (keep_first l).
Proof.
  induction 1 as [|y l Hy Hl IH]; [easy|].
  cbn [keep_first]. intros [->|Hx]; [now left|].
  destruct (SameValueZero x y) eqn:E.
  - left. rewrite Forall_forall in Hl. specialize (Hl x Hx).
    destruct x; try discriminate Hl. destruct y; try discriminate Hy.
    cbn in E. apply String.eqb_eq in E. now subst.
  - right. apply filter_In. split; [now apply IH | now rewrite E].
Qed.

(** X17.  The suggestions lose no name except to the cap: when the
    names of the payload are strings and at most 10 of them are
    different, a string is among the suggestions exactly when it is the
    name of an attraction, of a venue or of an event of the payload. *)
Theorem suggestions_complete (j : value) (attractions venues events : list value) :
  nullish j = false ->
  truthy (member j "_embedded") = true ->
  entry_names (member (member j "_embedded") "attractions")
    = Some attractions ->
  entry_names (member (member j "_embedded") "venues") = Some venues ->
  entry_names (member (member j "_embedded") "events") = Some events ->
  Forall (fun v => is_string v = true) (attractions ++ venues ++ events) ->
  (length (keep_first (attractions ++ venues ++ events)) <= 10)%nat ->
  exists unique,
    normalizeSuggestions j = Ok unique /\
    forall x, In x unique <-> In x (attractions ++ venues ++ events).
Proof.
  intros Hj He Ha Hv Hev Hs Hlen.
  unfold normalizeSuggestions, get. rewrite Hj. cbn [rbind]. rewrite He.
  rewrite (names_of_entries _ _ Ha), (names_of_entries _ _ Hv),
    (names_of_entries _ _ Hev).
  cbn [rbind]. rewrite Set_of_keep_first, (firstn_all2 _ Hlen).
  eexists. split; [reflexivity|]. intros x. split.
  - apply keep_first_incl.
  - now apply keep_first_In_string.
Qed.

End VenueAndSuggestions.

(* ================================================================== *)
(** * Further properties of the search query *)
(* ================================================================== *)

Section SearchQuery.

Context {P : Platform}.
Variable net : string -> fetch_result.

(** The five parameters every search sends. *)
Lemma search_fetches (query : value) (keyword lat lng : string)
  (params : list (string * string)) :
  member query "keyword" = VStr keyword -> keyword <> "" ->
  member query "lat" = VStr lat -> lat <> "" ->
  member query "lng" = VStr lng -> lng <> "" ->
  buildSearchQuery (VStr keyword)
    (default_to (member query "distance") (VStr "10"))
    (default_to (member query "category") (VStr "Default"))
    (VStr lat) (VStr lng) = Ok params ->
  snd (handle (search_route net query)) = [search_url params].
Proof.
  intros Hk Hkne Hlat Hlatne Hlng Hlngne Hq.
  rewrite (search_route_run net query keyword lat lng
             Hk Hkne Hlat Hlatne Hlng Hlngne), Hq.
  destruct (net (search_url params)) as [|status body]; [reflexivity|].
  destruct (ok status); [|reflexivity].
  destruct body as [j|]; [|reflexivity].
  destruct (normalizeSearchResults j); reflexivity.
Qed.

Lemma buildSearchQuery_strings (keyword lat lng radius : string)
  (distance category : value) (segment : option string) :
  ToString (or_else distance (VStr "10")) = Ok radius ->
  segment_of category = Ok segment ->
  buildSearchQuery (VStr keyword) distance category (VStr lat) (VStr lng)
  = Ok ([ ("apikey", api_key); ("keyword", keyword); ("radius", radius);
          ("unit", "miles");
          ("geoPoint",
             ngeohash_encode (parse_float lat) (parse_float lng) 7) ]
        ++ match segment with
           | Some id => [("segmentId", id)]
           | None => []
           end).
Proof.
  intros Hr Hs. unfold buildSearchQuery, parseFloat. cbn [ToString rbind].
  rewrite Hr. cbn [rbind]. rewrite Hs. cbn [rbind].
  destruct segment; [reflexivity | now rewrite app_nil_r].
Qed.

Lemma segment_of_primitive (category : value) :
  is_primitive category = true -> exists segment, segment_of category = Ok segment.
Proof.
  intros H. destruct (ToString_primitive _ H) as [c Hc].
  unfold segment_of. rewrite Hc. cbn [rbind].
  destruct (own_segment c SEGMENT_IDS); now eexists.
Qed.

(** X15.  The search radius: a [distance] that is missing or empty is
    sent as "10"; any other [distance] string is sent as it is, with no
    check that it is a number. *)
Theorem search_radius (query : value) (keyword lat lng : string) :
  member query "keyword" = VStr keyword -> keyword <> "" ->
  member query "lat" = VStr lat -> lat <> "" ->
  member query "lng" = VStr lng -> lng <> "" ->
  is_primitive (member query "category") = true ->
  exists segment,
    let params radius :=
      [ ("apikey", api_key); ("keyword", keyword); ("radius", radius);
        ("unit", "miles");
        ("geoPoint",
           ngeohash_encode (parse_float lat) (parse_float lng) 7) ]
      ++ segment in
    (member query "distance" = VUndefined \/
     member query "distance" = VStr "" ->
     snd (handle (search_route net query)) = [search_url (params "10")]) /\
    (forall distance,
       member query "distance" = VStr distance -> distance <> "" ->
       snd (handle (search_route net query))
       = [search_url (params distance)]).
Proof.
  intros Hk Hkne Hlat Hlatne Hlng Hlngne Hc.
  destruct (segment_of_primitive
              (default_to (member query "category") (VStr "Default")))
    as [segment Hseg].
  { now destruct (member query "category"). }
  exists (match segment with Some id => [("segmentId", id)] | None => [] end).
  cbv zeta. split.
  - intros Hd.
    apply (search_fetches query keyword lat lng _
             Hk Hkne Hlat Hlatne Hlng Hlngne).
    apply buildSearchQuery_strings; [|assumption].
    destruct Hd as [-> | ->]; reflexivity.
  - intros distance Hd Hdne.
    apply (search_fetches query keyword lat lng _
             Hk Hkne Hlat Hlatne Hlng Hlngne).
    apply buildSearchQuery_strings; [|assumption].
    rewrite Hd. cbn [default_to]. unfold or_else. cbn [truthy].
    apply String.eqb_neq in Hdne. now rewrite Hdne.
Qed.

Lemma own_segment_listed (label id : string) :
  In (label, id) SEGMENT_IDS ->
  own_segment label SEGMENT_IDS = Some id /\ id <> "".
Proof.
  unfold SEGMENT_IDS. cbn [In].
  intros [H|[H|[H|[H|[H|[]]]]]]; injection H as <- <-;
    (split; [reflexivity | discriminate]).
Qed.

(** X16.  The segment filter: a category that is one of the five labels
    of [SEGMENT_IDS] adds its identifier as the last parameter,
    [segmentId]; a category that is missing, or is any other text that
    names no member of [Object.prototype], adds nothing, and the search
    is still sent.  (A category such as "constructor", which names a
    member of [Object.prototype], is not covered: the lookup finds that
    member.) *)
Theorem search_segment (query : value) (keyword lat lng : string) :
  member query "keyword" = VStr keyword -> keyword <> "" ->
  member query "lat" = VStr lat -> lat <> "" ->
  member query "lng" = VStr lng -> lng <> "" ->
  is_primitive (member query "distance") = true ->
  exists radius,
    let params :=
      [ ("apikey", api_key); ("keyword", keyword); ("radius", radius);
        ("unit", "miles");
        ("geoPoint",
           ngeohash_encode (parse_float lat) (parse_float lng) 7) ] in
    (forall label id,
       In (label, id) SEGMENT_IDS ->
       member query "category" = VStr label ->
       snd (handle (search_route net query))
       = [search_url (params ++ [("segmentId", id)])]) /\
    (forall category,
       default_to (member query "category") (VStr "Default") = VStr category ->
       own_segment category SEGMENT_IDS = None ->
       Object_prototype_member category = None ->
       snd (handle (search_route net query)) = [search_url params]).
Proof.
  intros Hk Hkne Hlat Hlatne Hlng Hlngne Hd.
  assert (Hd' : is_primitive
                  (or_else (default_to (member query "distance") (VStr "10"))
                     (VStr "10")) = true).
  { unfold or_else. destruct (truthy _); [|reflexivity].
    now destruct (member query "distance"). }
  destruct (ToString_primitive _ Hd') as [radius Hr].
  exists radius. cbv zeta. split.
  - intros label id Hin Hc.
    destruct (own_segment_listed label id Hin) as [Hown Hne].
    apply (search_fetches query keyword lat lng _
             Hk Hkne Hlat Hlatne Hlng Hlngne).
    apply (buildSearchQuery_strings keyword lat lng radius _ _ (Some id) Hr).
    rewrite Hc. unfold segment_of. cbn [default_to ToString rbind].
    rewrite Hown. apply String.eqb_neq in Hne. now rewrite Hne.
  - intros category Hc Hown Hproto.
    rewrite <- (app_nil_r
                  [ ("apikey", api_key); ("keyword", keyword);
                    ("radius", radius); ("unit", "miles");
                    ("geoPoint",
                       ngeohash_encode (parse_float lat) (parse_float lng) 7) ]).
    apply (search_fetches query keyword lat lng _
             Hk Hkne Hlat Hlatne Hlng Hlngne).
    apply (buildSearchQuery_strings keyword lat lng radius _ _ None Hr).
    rewrite Hc. unfold segment_of. cbn [ToString rbind].
    now rewrite Hown, Hproto.
Qed.

End SearchQuery.

(* ================================================================== *)
(** * The properties on concrete requests and payloads *)
(* ================================================================== *)

Import Sample.

(** ** Upstream failures (C1) *)

(** C1, counterexample.  An upstream 404 on a venue lookup is not
    answered with [null]: the route throws, and the exception goes to
    [next].  An upstream 503 on an event lookup is not passed on as a
    failure: the route replies "event not found" with status 503. *)
Lemma upstream_status_counterexample :
  handle (venue_route (failing 404) (named "Forum"))
  = (Next (UpstreamError "TM venue failed" 404),
     ["https://app.ticketmaster.com/discovery/v2/venues.json?apikey=KEY&keyword=Forum&size=1"])
  /\
  handle (event_route (failing 503) "vvG1")
  = (Replied 503 (VObj [("error", VStr "event not found")]),
     ["https://app.ticketmaster.com/discovery/v2/events/vvG1.json?apikey=KEY"]).
Proof. split; reflexivity. Qed.

Lemma upstream_failures_witness :
  handle (event_route (failing 500) "vvG1")
  = (Replied 500 (error_body "event not found"), [event_url "vvG1"]) /\
  handle (event_route down "vvG1")
  = (Next FetchFailed, [event_url "vvG1"]) /\
  handle (venue_route (failing 404) (named "Forum"))
  = (Next (UpstreamError "TM venue failed" 404), [venue_url "Forum"]) /\
  handle (venue_route (answering (VObj [("_embedded", VObj [])]))
            (named "Forum"))
  = (Replied 200 VNull, [venue_url "Forum"]) /\
  fst (handle (venue_route (answering forum) (named "Forum")))
  <> Replied 200 VNull.
Proof.
  split; [|split; [|split; [|split]]].
  - destruct (upstream_failures (failing 500)) as [H _].
    destruct (H "vvG1") as [_ [H1 _]].
    apply (H1 500%Z None); reflexivity.
  - destruct (upstream_failures down) as [H _].
    destruct (H "vvG1") as [H1 _].
    apply H1. reflexivity.
  - destruct (upstream_failures (failing 404)) as [_ H].
    destruct (H (named "Forum") "Forum")
      as [_ [H1 _]]; [reflexivity | discriminate |].
    apply (H1 404%Z None); reflexivity.
  - destruct (upstream_failures (answering (VObj [("_embedded", VObj [])])))
      as [_ H].
    destruct (H (named "Forum") "Forum")
      as [_ [_ [_ [H1 _]]]]; [reflexivity | discriminate |].
    apply (H1 200%Z (VObj [("_embedded", VObj [])])); reflexivity.
  - destruct (upstream_failures (answering forum)) as [_ H].
    destruct (H (named "Forum") "Forum")
      as [_ [_ [_ [_ [_ H1]]]]]; [reflexivity | discriminate |].
    intros Hnull. destruct (H1 200%Z Hnull) as [upstream [j [Hj [_ Hv]]]].
    injection Hj as _ <-. discriminate Hv.
Defined.

(** ** Event rows and details (C2) *)

(** C2, counterexample.  An event payload without [id] gives a row whose
    [id] is [undefined]; an attraction without [name] and [url] gives an
    artist whose fields are [undefined]; and the detail record of an
    event that has images has no [imageUrl]. *)
Lemma normEventRow_missing_id :
  normEventRow (named "Show")
  = Ok (VObj [ ("id", VUndefined); ("name", VStr "Show");
               ("dateLocal", VStr ""); ("imageUrl", VStr "");
               ("genre", VStr ""); ("venue", VStr "") ]) /\
  (details <-
     normalizeEventDetail
       (VObj [("_embedded", VObj [("attractions", VArr [VObj []])])]) ;;
   Ok (member details "id", member details "artists"))%result
  = Ok (VUndefined,
        VArr [VObj [("name", VUndefined); ("url", VUndefined)]]) /\
  (details <- normalizeEventDetail concert ;;
   Ok (member details "imageUrl"))%result
  = Ok VUndefined.
Proof. repeat split; reflexivity. Qed.

Lemma normalizer_defaults_witness :
  (exists row,
     normEventRow concert = Ok row /\
     member row "id" = VStr "vvG1" /\
     all_defined row ["name"; "dateLocal"; "imageUrl"; "genre"; "venue"] /\
     member row "dateLocal" = VStr "" /\
     member row "venue" = VStr "" /\
     field_names row
     = ["id"; "name"; "dateLocal"; "imageUrl"; "genre"; "venue"]) /\
  (exists details artists,
     normalizeEventDetail concert = Ok details /\
     member details "artists" = VArr artists /\
     (length artists <= 5)%nat /\
     all_defined details
       [ "name"; "dateLocal"; "timeLocal"; "artists"; "venue"; "address";
         "ticketStatus"; "ticketStatusColor"; "buyTicketAt"; "seatmap";
         "priceRange"; "genre" ] /\
     member details "ticketStatusColor" = VStr "gray" /\
     member details "priceRange" = VStr "" /\
     member details "imageUrl" = VUndefined /\
     artists = [ VObj [("name", VStr "A"); ("url", VStr "u/a")];
                 VObj [("name", VStr "B"); ("url", VUndefined)] ]).
Proof.
  destruct (normalizer_defaults concert) as [Hrow Hdetails]. split.
  - destruct (Hrow eq_refl)
      as (row & H1 & H2 & H3 & _ & H5 & _ & _ & H8 & H9).
    exists row. repeat split;
      [ exact H1 | exact H2 | exact H3 | exact (H5 eq_refl)
      | exact (H8 eq_refl) | exact H9 ].
  - destruct (Hdetails eq_refl)
      as (details & artists & H1 & _ & H3 & H4 & _ & H6 & _ & _ & _ & _ & _
          & _ & H13 & _ & _ & H16 & _ & _ & H19 & H20).
    exists details, artists. repeat split;
      [ exact H1 | exact H3 | exact H4 | exact H6 | exact (H13 eq_refl)
      | exact (H16 eq_refl) | exact H19 | exact (H20 _ eq_refl) ].
Defined.

Example concert_row :
  normEventRow concert
  = Ok (VObj [ ("id", VStr "vvG1"); ("name", VStr "Rock Night");
               ("dateLocal", VStr ""); ("imageUrl", VStr "square");
               ("genre", VStr "Music | Rock"); ("venue", VStr "") ]).
Proof. reflexivity. Qed.

(** ** Search results (C3) *)

(** C3, counterexample.  With an object, or a string, as
    [_embedded.events] the normalizer throws a [TypeError], and the
    search ends with that exception passed to [next], not with the
    empty list. *)
Lemma normalizeSearchResults_not_array :
  normalizeSearchResults (VObj [("_embedded", VObj [("events", VObj [])])])
  = Throw TypeError /\
  normalizeSearchResults
    (VObj [("_embedded", VObj [("events", VStr "none")])])
  = Throw TypeError /\
  handle (search_route
            (answering (VObj [("_embedded", VObj [("events", VObj [])])]))
            (VObj [ ("keyword", VStr "rock");
                    ("lat", VStr "34"); ("lng", VStr "-118") ]))
  = (Next TypeError,
     ["https://app.ticketmaster.com/discovery/v2/events.json?apikey=KEY&keyword=rock&radius=10&unit=miles&geoPoint=9qh16ve"]).
Proof. repeat split; reflexivity. Qed.

Lemma normalizeSearchResults_events_witness :
  normalizeSearchResults (VObj [("_embedded", VObj [("events", VNull)])])
  = Ok [] /\
  normalizeSearchResults
    (VObj [("_embedded", VObj [("events", VNum (Fin 1))])])
  = Throw TypeError /\
  handle (search_route
            (answering (VObj [("_embedded", VObj [("events", VNull)])]))
            rock_query)
  = (Replied 200 (VArr []),
     [search_url
        [ ("apikey", "KEY"); ("keyword", "rock"); ("radius", "10");
          ("unit", "miles"); ("geoPoint", "12h04b5");
          ("segmentId", "KZFzniwnSyZfZ7v7nJ") ]]) /\
  handle (search_route
            (answering (VObj [("_embedded", VObj [("events", VStr "none")])]))
            rock_query)
  = (Next TypeError,
     [search_url
        [ ("apikey", "KEY"); ("keyword", "rock"); ("radius", "10");
          ("unit", "miles"); ("geoPoint", "12h04b5");
          ("segmentId", "KZFzniwnSyZfZ7v7nJ") ]]).
Proof.
  split; [|split; [|split]].
  - apply (normalizeSearchResults_events (fun _ => NetworkFailure)
             (VObj [("_embedded", VObj [("events", VNull)])])).
    reflexivity.
  - apply (normalizeSearchResults_events (fun _ => NetworkFailure)
             (VObj [("_embedded", VObj [("events", VNum (Fin 1))])]));
      reflexivity.
  - destruct (normalizeSearchResults_events
                (answering (VObj [("_embedded", VObj [("events", VNull)])]))
                (VObj [("_embedded", VObj [("events", VNull)])]))
      as [_ [_ H]].
    destruct (H rock_query "rock" "north" "-118" _ 200%Z
                eq_refl ltac:(discriminate) eq_refl ltac:(discriminate)
                eq_refl ltac:(discriminate) eq_refl eq_refl eq_refl)
      as [H1 _].
    exact (H1 eq_refl).
  - destruct (normalizeSearchResults_events
                (answering
                   (VObj [("_embedded", VObj [("events", VStr "none")])]))
                (VObj [("_embedded", VObj [("events", VStr "none")])]))
      as [_ [_ H]].
    destruct (H rock_query "rock" "north" "-118" _ 200%Z
                eq_refl ltac:(discriminate) eq_refl ltac:(discriminate)
                eq_refl ltac:(discriminate) eq_refl eq_refl eq_refl)
      as [_ H2].
    exact (H2 eq_refl eq_refl).
Defined.

(** ** Validation (C4) *)

Lemma validation_before_fetch_witness :
  (exists message,
     handle (search_route down
               (VObj [ ("keyword", VStr ""); ("distance", VStr "10");
                       ("lat", VStr "34"); ("lng", VStr "-118") ]))
     = (Replied 400 (error_body message), [])) /\
  (exists message,
     handle (search_route down
               (VObj [("keyword", VStr "rock"); ("lng", VStr "-118")]))
     = (Replied 400 (error_body message), [])) /\
  handle (venue_route down (VObj []))
  = (Replied 400 (error_body "name is required"), []).
Proof.
  destruct (validation_before_fetch down) as [Hs Hv].
  split; [|split].
  - apply Hs. left. reflexivity.
  - apply Hs. right. left. reflexivity.
  - apply Hv. reflexivity.
Defined.

Example search_validation_messages :
  handle (search_route down
            (VObj [ ("keyword", VStr ""); ("distance", VStr "10");
                    ("lat", VStr "34"); ("lng", VStr "-118") ]))
  = (Replied 400 (VObj [("error", VStr "keyword is required")]), []) /\
  handle (search_route down
            (VObj [("keyword", VStr "rock"); ("lng", VStr "-118")]))
  = (Replied 400 (VObj [("error", VStr "lat and lng are required")]), []).
Proof. split; reflexivity. Qed.

(** ** Suggestions (C5, C6) *)

(** C5, counterexample.  The suggest route fails when the upstream
    answers 500. *)
Lemma suggest_fails_on_upstream_error :
  handle (suggest_route (failing 500) (keyword_query "adele"))
  = (Next (UpstreamError "TM suggest failed" 500),
     ["https://app.ticketmaster.com/discovery/v2/suggest?apikey=KEY&keyword=adele"]).
Proof. reflexivity. Qed.

Lemma suggest_blank_or_upstream_witness :
  handle (suggest_route down (keyword_query "   "))
  = (Replied 200 (VArr []), []) /\
  handle (suggest_route down (VObj [])) = (Replied 200 (VArr []), []) /\
  handle (suggest_route (answering (VObj [])) (keyword_query "adele"))
  = (Replied 200 (VArr []), [suggest_url "adele"]) /\
  handle (suggest_route down (keyword_query "adele"))
  = (Next FetchFailed, [suggest_url "adele"]).
Proof.
  split; [|split; [|split]].
  - apply (suggest_blank_or_upstream down (keyword_query "   ") "   ");
      reflexivity.
  - apply (suggest_blank_or_upstream down (VObj []) ""); reflexivity.
  - destruct (suggest_blank_or_upstream (answering (VObj []))
                (keyword_query "adele") "adele" eq_refl) as [_ H].
    destruct (H eq_refl) as [H1 _].
    apply (H1 200%Z (VObj [])); reflexivity.
  - destruct (suggest_blank_or_upstream down
                (keyword_query "adele") "adele" eq_refl) as [_ H].
    destruct (H eq_refl) as [_ [H1 _]].
    apply H1. reflexivity.
Defined.

(** C6, counterexample.  An attraction without a name puts [undefined],
    which is not a string, in the suggestions; and the normalizer throws
    when [attractions] is [null]. *)
Lemma normalizeSuggestions_not_strings :
  normalizeSuggestions
    (VObj [("_embedded", VObj [("attractions", VArr [VObj []])])])
  = Ok [VUndefined] /\
  normalizeSuggestions (VObj [("_embedded", VObj [("attractions", VNull)])])
  = Throw TypeError.
Proof. split; reflexivity. Qed.

Lemma normalizeSuggestions_flattens_witness :
  normalizeSuggestions suggestions = Ok [VStr "A"; VStr "B"; VStr "C"] /\
  distinct [VStr "A"; VStr "B"; VStr "C"].
Proof.
  destruct (normalizeSuggestions_flattens suggestions eq_refl) as [_ H].
  destruct (H [VStr "A"; VStr "B"] [VStr "B"; VStr "C"] [VStr "A"]
              eq_refl eq_refl eq_refl eq_refl) as [H1 [H2 _]].
  split; [exact H1 | exact H2].
Defined.

(** ** Venues (C7) *)

(** C7, counterexample.  For a venue on the equator, its latitude the
    number 0, the coordinate is there and [location.lat] is [null], and
    so is [googleMapsUrl] though both coordinates are there. *)
Lemma normalizeVenue_zero_latitude :
  normalizeVenue equator
  = Ok (VObj [ ("name", VStr "Mitad del Mundo");
               ("address", VStr "Mitad del Mundo");
               ("location",
                VObj [("lat", VNull); ("lng", VNum (Fin (-78)))]);
               ("googleMapsUrl", VNull);
               ("tmUrl", VNull) ]).
Proof. reflexivity. Qed.

Lemma normalizeVenue_coordinates_witness :
  normalizeVenue (VObj [("_embedded", VObj [("venues", VArr [])])])
  = Ok VNull /\
  exists out lat lng,
    normalizeVenue forum = Ok out /\
    member out "location" = VObj [("lat", lat); ("lng", lng)] /\
    (exists n, ToNumber (VStr "34") = Ok n /\ lat = VNum n) /\
    (exists n, ToNumber (VStr "-118") = Ok n /\ lng = VNum n) /\
    member out "googleMapsUrl" <> VNull.
Proof.
  split.
  - apply (normalizeVenue_coordinates
             (VObj [("_embedded", VObj [("venues", VArr [])])])).
    reflexivity.
  - destruct (normalizeVenue_coordinates forum) as [_ H].
    destruct (H eq_refl eq_refl)
      as [out [lat [lng [H1 [H2 [_ [H4 [_ [H6 H7]]]]]]]]].
    exists out, lat, lng. repeat split;
      [ exact H1 | exact H2 | exact (H4 eq_refl) | exact (H6 eq_refl)
      | apply H7; split; reflexivity ].
Defined.

Example forum_venue :
  normalizeVenue forum
  = Ok (VObj [ ("name", VStr "The Forum");
               ("address", VStr "The Forum, Inglewood, CA, 90305");
               ("location",
                VObj [ ("lat", VNum (Fin (inject_Z 34)));
                       ("lng", VNum (Fin (inject_Z (-118)))) ]);
               ("googleMapsUrl",
                VStr "https://www.google.com/maps/search/?api=1&query=34,-118");
               ("tmUrl", VNull) ]).
Proof. reflexivity. Qed.

(** ** Images (C8) *)

(** C8, counterexample.  [pickImage] throws on an array that holds
    [null]; and when the most square image has an empty [url] the result
    is the [url] of the first image, which is less square. *)
Lemma pickImage_counterexample :
  pickImage (VArr [VNull]) = Throw TypeError /\
  pickImage (VArr [image "b" 50 10; image "" 100 100]) = Ok (VStr "b").
Proof. split; reflexivity. Qed.

Lemma sample_subtracts_exactly : subtracts_exactly.
Proof. intros x y _ _ _. reflexivity. Qed.

Lemma pickImage_most_square_witness :
  pickImage (VArr [image "wide" 640 360; image "square" 300 300])
  = Ok (VStr "square").
Proof.
  destruct pickImage_most_square as [_ [_ H]].
  destruct (H sample_subtracts_exactly
              [image "wide" 640 360; image "square" 300 300])
    as [pre [best [post [Hsplit [Hpre [Hpost Hpick]]]]]];
    [discriminate | reflexivity |].
  rewrite Hpick. destruct pre as [|p [|p' pre]].
  - injection Hsplit as <- <-.
    inversion Hpost as [|? ? Hle _]. exfalso. apply Hle. reflexivity.
  - injection Hsplit as <- <- <-. reflexivity.
  - injection Hsplit as _ _ Hnil. destruct pre; discriminate Hnil.
Defined.

(** Sizes beyond 2^52 are not covered: their difference need not be a
    double. *)
Example is_image_bounds :
  is_image (image "a" 4503599627370496 (-4503599627370496)) = true /\
  is_image (image "a" 9007199254740992 (-1)) = false.
Proof. split; reflexivity. Qed.

Example pickImage_square_first :
  pickImage (VArr [image "a" 100 100; image "b" 50 10]) = Ok (VStr "a") /\
  pickImage (VArr [image "b" 50 10; image "a" 100 100]) = Ok (VStr "a") /\
  pickImage (VArr [image "first" 20 10; image "second" 30 40])
  = Ok (VStr "first") /\
  pickImage (VArr []) = Ok (VStr "") /\
  pickImage VUndefined = Ok (VStr "").
Proof. repeat split; reflexivity. Qed.

(** ** Ticket status (C9) *)

Lemma ticketStatusColor_classifies_witness :
  ticketStatusColor (VStr "OnSale") = Ok "green" /\
  ticketStatusColor (VStr "offsale") = Ok "red" /\
  ticketStatusColor (VStr "rescheduled") = Ok "orange".
Proof.
  split; [|split].
  - apply (ticketStatusColor_classifies "OnSale").
    apply JsStringFacts.includes_lowered. reflexivity.
  - apply (ticketStatusColor_classifies "offsale").
    + apply JsStringFacts.includes_lowered_false. reflexivity.
    + apply JsStringFacts.includes_lowered. reflexivity.
  - apply (ticketStatusColor_classifies "rescheduled").
    + apply JsStringFacts.includes_lowered_false. reflexivity.
    + apply JsStringFacts.includes_lowered_false. reflexivity.
    + apply JsStringFacts.includes_lowered_false. reflexivity.
    + right. apply JsStringFacts.includes_lowered. reflexivity.
Defined.

(** ** Search coordinates (C10) *)

Lemma search_coordinates_unchecked_witness :
  (forall message,
     fst (handle (search_route down rock_query))
     <> Replied 400 (error_body message)) /\
  exists radius segment,
    buildSearchQuery (VStr "rock") (VStr "10") (VStr "Music")
      (VStr "north") (VStr "-118")
    = Ok ([ ("apikey", "KEY"); ("keyword", "rock"); ("radius", radius);
            ("unit", "miles");
            ("geoPoint", geohash (parse_num "north") (parse_num "-118") 7) ]
          ++ segment) /\
    snd (handle (search_route down rock_query))
    = [ search_url
          ([ ("apikey", "KEY"); ("keyword", "rock"); ("radius", radius);
             ("unit", "miles");
             ("geoPoint", geohash (parse_num "north") (parse_num "-118") 7) ]
           ++ segment) ].
Proof.
  pose proof
    (search_coordinates_unchecked down rock_query "rock" "north" "-118"
       eq_refl ltac:(discriminate) eq_refl ltac:(discriminate)
       eq_refl ltac:(discriminate)) as [Hpass Hfetch].
  split; [exact Hpass | exact (Hfetch eq_refl eq_refl)].
Defined.

Example search_fetches_geohash :
  handle (search_route (answering (VObj []))
            (VObj [ ("keyword", VStr "rock"); ("category", VStr "Music");
                    ("lat", VStr "34"); ("lng", VStr "-118") ]))
  = (Replied 200 (VArr []),
     ["https://app.ticketmaster.com/discovery/v2/events.json?apikey=KEY&keyword=rock&radius=10&unit=miles&geoPoint=9qh16ve&segmentId=KZFzniwnSyZfZ7v7nJ"])
  /\
  parse_num "north" = NaN /\
  handle (search_route (answering (VObj [])) rock_query)
  = (Replied 200 (VArr []),
     ["https://app.ticketmaster.com/discovery/v2/events.json?apikey=KEY&keyword=rock&radius=10&unit=miles&geoPoint=12h04b5&segmentId=KZFzniwnSyZfZ7v7nJ"]).
Proof. repeat split; reflexivity. Qed.

(** ** Further properties: validation and replies (X1, X2, X4, X18) *)

Lemma search_validation_exact_witness :
  handle (search_route down (VObj []))
  = (Replied 400 (error_body "keyword is required"), []) /\
  handle (search_route down
            (VObj [("keyword", VStr "rock"); ("lat", VStr "");
                   ("lng", VStr "-118")]))
  = (Replied 400 (error_body "lat and lng are required"), []) /\
  (forall body,
     fst (handle (search_route down rock_query)) <> Replied 400 body).
Proof.
  split; [|split].
  - apply (search_validation_exact down (VObj [])). reflexivity.
  - apply (search_validation_exact down
             (VObj [("keyword", VStr "rock"); ("lat", VStr "");
                    ("lng", VStr "-118")])); reflexivity.
  - apply (search_validation_exact down rock_query); reflexivity.
Defined.

Lemma venue_validation_exact_witness :
  handle (venue_route down (named ""))
  = (Replied 400 (error_body "name is required"), []) /\
  (forall body,
     fst (handle (venue_route down (named "Forum"))) <> Replied 400 body).
Proof.
  split.
  - apply (venue_validation_exact down (named "")). reflexivity.
  - apply (venue_validation_exact down (named "Forum")). reflexivity.
Defined.

Lemma success_needs_upstream_witness :
  exists name status j,
    [venue_url "Forum"] = [venue_url name] /\
    answering forum (venue_url name) = Response status (Some j) /\
    ok status = true /\
    normalizeVenue j
    = Ok (VObj [ ("name", VStr "The Forum");
                 ("address", VStr "The Forum, Inglewood, CA, 90305");
                 ("location",
                  VObj [ ("lat", VNum (Fin (inject_Z 34)));
                         ("lng", VNum (Fin (inject_Z (-118)))) ]);
                 ("googleMapsUrl",
                  VStr "https://www.google.com/maps/search/?api=1&query=34,-118");
                 ("tmUrl", VNull) ]).
Proof.
  destruct (success_needs_upstream (answering forum)) as [_ [H _]].
  exact (H (named "Forum") _ _ eq_refl).
Defined.

Lemma suggest_keyword_not_string_witness :
  handle (suggest_route down
            (VObj [("keyword", VArr [VStr "a"; VStr "b"])]))
  = (Next TypeError, []) /\
  respond (fst (handle (suggest_route down
                          (VObj [("keyword", VArr [VStr "a"; VStr "b"])]))))
  = Sent 500 (error_body "Server error").
Proof.
  apply (suggest_keyword_not_string down
           (VObj [("keyword", VArr [VStr "a"; VStr "b"])]));
    [discriminate | reflexivity].
Defined.

(** ** Further properties: rows, artists and colours (X6, X7, X8) *)

Lemma normalizeSearchResults_rows_witness :
  exists rows,
    normalizeSearchResults
      (VObj [("_embedded", VObj [("events", VArr [concert; named "Show"])])])
    = Ok rows /\
    length rows = 2%nat /\
    map (fun r => member r "id") rows = [VStr "vvG1"; VUndefined] /\
    map (fun r => member r "name") rows = [VStr "Rock Night"; VStr "Show"].
Proof.
  exact (proj1
           (normalizeSearchResults_rows
              (VObj [("_embedded",
                      VObj [("events", VArr [concert; named "Show"])])])
              [concert; named "Show"] eq_refl)
           eq_refl).
Defined.

Lemma detail_artists_witness :
  exists details,
    normalizeEventDetail concert = Ok details /\
    member details "artists"
    = VArr [ VObj [("name", VStr "A"); ("url", VStr "u/a")];
             VObj [("name", VStr "B"); ("url", VUndefined)] ].
Proof.
  exact (proj1
           (detail_artists concert
              [ VObj [("name", VStr "A"); ("url", VStr "u/a")];
                VObj [("name", VStr "B")] ] eq_refl)
           eq_refl).
Defined.

Lemma ticketStatusColor_range_witness :
  (exists colour,
     ticketStatusColor (VStr "onsale") = Ok colour /\ In colour colours) /\
  ticketStatusColor (VNum (Fin 1)) = Throw TypeError.
Proof.
  split.
  - apply (ticketStatusColor_range (VStr "onsale")). right. reflexivity.
  - apply (ticketStatusColor_range (VNum (Fin 1))); reflexivity.
Defined.

(** ** Further properties: images, genre, address, prices (X9-X13) *)

Lemma pickImage_picks_member_witness :
  exists url,
    pickImage (VArr [image "wide" 640 360; image "square" 300 300]) = Ok url /\
    (url = VStr "" \/
     exists a,
       In a [image "wide" 640 360; image "square" 300 300] /\
       member a "url" = url /\ truthy url = true).
Proof.
  exact (pickImage_picks_member
           [image "wide" 640 360; image "square" 300 300] eq_refl).
Defined.

Lemma pickImage_unsized_first_witness :
  pickImage (VArr [VObj [("url", VStr "u")]; VObj [("url", VStr "w")]])
  = Ok (VStr "u").
Proof.
  exact (pickImage_unsized_first
           (VObj [("url", VStr "u")]) [VObj [("url", VStr "w")]] eq_refl).
Defined.

Lemma pickGenre_names_witness :
  pickGenre
    (VArr [VObj [ ("segment", VObj [("name", VStr "Music")]);
                  ("genre", VObj [("name", VStr "")]);
                  ("subGenre", VObj [("name", VStr "Pop")]) ]])
  = Ok "Music | Pop".
Proof.
  exact (pickGenre_names
           (VObj [ ("segment", VObj [("name", VStr "Music")]);
                   ("genre", VObj [("name", VStr "")]);
                   ("subGenre", VObj [("name", VStr "Pop")]) ]) [] eq_refl).
Defined.

Lemma fullAddress_parts_witness :
  fullAddress
    (VObj [ ("name", VStr "The Forum");
            ("state", VObj [("stateCode", VStr "CA")]);
            ("postalCode", VStr "90305") ])
  = Ok "The Forum, CA, 90305".
Proof.
  exact (proj2
           (fullAddress_parts
              (VObj [ ("name", VStr "The Forum");
                      ("state", VObj [("stateCode", VStr "CA")]);
                      ("postalCode", VStr "90305") ]))
           eq_refl eq_refl).
Defined.

Lemma toFixed2_not_empty (n : num) : toFixed2 n <> "".
Proof. cbn. destruct (print_num n); discriminate. Qed.

Lemma formatPriceRange_cases_witness :
  exists lo hi,
    ToNumber (VNum (Fin 0)) = Ok lo /\
    ToNumber VUndefined = Ok hi /\
    formatPriceRange (VArr [VObj [("min", VNum (Fin 0))]])
    = Ok ("From $" ++ toFixed2 lo)%string.
Proof.
  exact (formatPriceRange_cases (VObj [("min", VNum (Fin 0))]) []
           toFixed2_not_empty eq_refl eq_refl).
Defined.

Example price_from_zero :
  formatPriceRange (VArr [VObj [("min", VNum (Fin 0))]]) = Ok "From $0.00".
Proof. reflexivity. Qed.

(** ** Further properties: venue and suggestions (X14, X17) *)

Lemma venue_coordinates_verbatim_witness :
  exists out,
    normalizeVenue forum = Ok out /\
    member out "location"
    = VObj [ ("lat", VNum (parse_num "34")); ("lng", VNum (parse_num "-118")) ] /\
    member out "googleMapsUrl"
    = VStr "https://www.google.com/maps/search/?api=1&query=34,-118".
Proof.
  exact (venue_coordinates_verbatim forum "34" "-118"
           eq_refl eq_refl ltac:(discriminate) eq_refl ltac:(discriminate)).
Defined.

Lemma suggestions_complete_witness :
  exists unique,
    normalizeSuggestions suggestions = Ok unique /\
    forall x,
      In x unique <->
      In x ([VStr "A"; VStr "B"] ++ [VStr "B"; VStr "C"] ++ [VStr "A"]).
Proof.
  apply (suggestions_complete suggestions
           [VStr "A"; VStr "B"] [VStr "B"; VStr "C"] [VStr "A"]);
    try reflexivity.
  - repeat constructor.
  - cbn. lia.
Defined.

(** ** Further properties: the search query (X15, X16) *)

Lemma search_radius_witness :
  exists segment,
    snd (handle (search_route down rock_query))
    = [ search_url
          ([ ("apikey", "KEY"); ("keyword", "rock"); ("radius", "10");
             ("unit", "miles");
             ("geoPoint", geohash (parse_num "north") (parse_num "-118") 7) ]
           ++ segment) ].
Proof.
  destruct (search_radius down rock_query "rock" "north" "-118"
              eq_refl ltac:(discriminate) eq_refl ltac:(discriminate)
              eq_refl ltac:(discriminate) eq_refl) as [segment [H _]].
  exists segment. apply H. left. reflexivity.
Defined.

Lemma search_segment_witness :
  exists radius,
    snd (handle (search_route down rock_query))
    = [ search_url
          ([ ("apikey", "KEY"); ("keyword", "rock"); ("radius", radius);
             ("unit", "miles");
             ("geoPoint", geohash (parse_num "north") (parse_num "-118") 7) ]
           ++ [("segmentId", "KZFzniwnSyZfZ7v7nJ")]) ].
Proof.
  destruct (search_segment down rock_query "rock" "north" "-118"
              eq_refl ltac:(discriminate) eq_refl ltac:(discriminate)
              eq_refl ltac:(discriminate) eq_refl) as [radius [H _]].
  exists radius. apply (H "Music" "KZFzniwnSyZfZ7v7nJ"); [|reflexivity].
  left. reflexivity.
Defined.
